(** * QLoggerWriter: the asynchronous log writer of QLogger

    A shallow embedding of [QLoggerWriter.cpp]: the message formatter of
    [enqueue], the day-based rotation of [renameFileIfFull] (with the
    size-based statements that follow it in the source), the duplicate-name
    search, the file writer and the shutdown sequence.

    The writer object and its environment (file system, console, clocks,
    the external 7z process, the wait condition) are threaded through
    every member function as one explicit state. *)

From Stdlib Require Import ZArith String Ascii List Bool Lia.
From stdpp Require Import base option strings pretty list gmap.

Local Open Scope string_scope.
Local Open Scope Z_scope.

(** ** Qt strings *)

Module QString.

Fixpoint left (n : nat) (s : string) : string :=
  match n, s with
  | S k, String c r => String c (left k r)
  | _, _ => ""
  end.

Fixpoint dropLeft (n : nat) (s : string) : string :=
  match n, s with
  | S k, String _ r => dropLeft k r
  | _, _ => s
  end.

Definition size (s : string) : Z := Z.of_nat (String.length s).

Definition isEmpty (s : string) : bool := bool_decide (s = "").

(** [left(n)] on an [int]: the whole string when [n] is negative or not
    smaller than the size. *)
Definition leftZ (n : Z) (s : string) : string :=
  if (n <? 0) || (size s <=? n) then s else left (Z.to_nat n) s.

(** [mid(pos, n)]: [n] characters from position [pos]; a negative [n]
    (the default -1) means all of them to the end. *)
Definition mid (pos n : Z) (s : string) : string :=
  let r := if pos <? 0 then s else dropLeft (Z.to_nat pos) s in
  if n <? 0 then r else left (Z.to_nat n) r.

(** [right(n)]: the last [n] characters. *)
Definition right (n : Z) (s : string) : string :=
  if size s <=? n then s else dropLeft (Z.to_nat (size s - n)) s.

(** [insert(i, t)]: a negative position leaves the string as it is; the
    callers of this file never pass a position beyond the end. *)
Definition insert (i : Z) (t s : string) : string :=
  if i <? 0 then s
  else left (Z.to_nat i) s +:+ t +:+ dropLeft (Z.to_nat i) s.

Definition startsWith (c : ascii) (s : string) : bool :=
  match s with
  | String d _ => bool_decide (d = c)
  | "" => false
  end.

Fixpoint endsWith (c : ascii) (s : string) : bool :=
  match s with
  | "" => false
  | String d "" => bool_decide (d = c)
  | String _ r => endsWith c r
  end.

Fixpoint isPrefixOf (p s : string) : bool :=
  match p, s with
  | "", _ => true
  | String a p', String b s' => bool_decide (a = b) && isPrefixOf p' s'
  | _, _ => false
  end.

Fixpoint contains (sub s : string) : bool :=
  isPrefixOf sub s ||
  match s with
  | "" => false
  | String _ r => contains sub r
  end.

(** [lastIndexOf(c)], -1 when [c] does not occur. *)
Fixpoint lastIndexOf (c : ascii) (s : string) : Z :=
  match s with
  | "" => -1
  | String d r =>
      let i := lastIndexOf c r in
      if 0 <=? i then i + 1
      else if bool_decide (d = c) then 0 else -1
  end.

(** [QString::number(int)]. *)
Definition number (n : Z) : string := pretty n.

Definition marker (d : string) (k : nat) (args : list string)
    (tail : string) : string :=
  match k with
  | S j => match args !! j with
           | Some a => a +:+ tail
           | None => "%" +:+ d +:+ tail
           end
  | O => "%" +:+ d +:+ tail
  end.

(** [QString::arg] with one or several string arguments: every place
    marker [%k] (one or two digits) is replaced in a single pass, so the
    inserted texts are not scanned again. Qt gives the arguments to the
    distinct marker numbers in increasing order; the formats of
    QLoggerWriter number their markers 1..n, where that is: argument [k]
    replaces [%k]. A marker without an argument stays. *)
Fixpoint arg (fmt : string) (args : list string) {struct fmt} : string :=
  match fmt with
  | "" => ""
  | String c rest =>
      if bool_decide (c = "%"%char) then
        match rest with
        | String d1 rest1 =>
            match Ascii.is_nat d1 with
            | Some n1 =>
                match rest1 with
                | String d2 rest2 =>
                    match Ascii.is_nat d2 with
                    | Some n2 =>
                        marker (String d1 (String d2 "")) (10 * n1 + n2)
                               args (arg rest2 args)
                    | None =>
                        marker (String d1 "") n1 args (arg rest1 args)
                    end
                | "" => marker (String d1 "") n1 args ""
                end
            | None => String c (arg rest args)
            end
        | "" => String c ""
        end
      else String c (arg rest args)
  end.

(** Decimal rendering in a field of [width] digits, zero padded on the
    left, as the date formats [yyyy], [MM], [dd], [hh], [zzz] do. *)
Definition padded (width : nat) (n : nat) : string :=
  let d := pretty n in
  String.concat "" (replicate (width - String.length d) "0") +:+ d.

End QString.

Global Arguments QString.arg : simpl never.
Global Arguments QString.number : simpl never.
Global Arguments QString.padded : simpl never.
Global Arguments QString.insert : simpl never.

(** ** Dates and times *)

Record QDate := mkDate { year : nat; month : nat; day : nat }.

Record QDateTime := mkDateTime {
  date : QDate; hour : nat; minute : nat; second : nat; msec : nat }.

Global Instance QDate_eq_dec : EqDecision QDate.
Proof. solve_decision. Defined.

Module QDateFormat.
Import QString.

(** [QDate::toString("_yyyy_MM_dd")] *)
Definition underscores (d : QDate) : string :=
  "_" +:+ padded 4 (year d) +:+ "_" +:+ padded 2 (month d)
      +:+ "_" +:+ padded 2 (day d).

(** [QDate::toString("yyyy-MM-dd")] *)
Definition iso (d : QDate) : string :=
  padded 4 (year d) +:+ "-" +:+ padded 2 (month d) +:+ "-" +:+ padded 2 (day d).

(** [QDateTime::toString("yyyy-MM-dd hh:mm:ss:zzz")] *)
Definition stamp (t : QDateTime) : string :=
  iso (date t) +:+ " " +:+ padded 2 (hour t) +:+ ":" +:+ padded 2 (minute t)
    +:+ ":" +:+ padded 2 (second t) +:+ ":" +:+ padded 3 (msec t).

(** [QDateTime::toString("dd_MM_yy__hh_mm_ss")] *)
Definition suffix (t : QDateTime) : string :=
  padded 2 (day (date t)) +:+ "_" +:+ padded 2 (month (date t)) +:+ "_"
    +:+ padded 2 (year (date t) mod 100) +:+ "__" +:+ padded 2 (hour t)
    +:+ "_" +:+ padded 2 (minute t) +:+ "_" +:+ padded 2 (second t).
End QDateFormat.

Global Arguments QDateFormat.underscores : simpl never.
Global Arguments QDateFormat.stamp : simpl never.
Global Arguments QDateFormat.suffix : simpl never.

(** ** The enumerations of QLoggerLevel.h

    The enumerators are the ones QLoggerWriter.cpp names. The header that
    gives them their values is not among the sources, so the numeric value
    of each level (which decides [mLevel <= LogLevel::Debug]) and the bits
    of each display flag are parameters of the development. *)

Inductive LogLevel := Trace | Debug | Info | Warning | Error | Fatal.

Inductive LogMode := Disabled | OnlyConsole | OnlyFile | Full.

(** The source names [DateTime]; [Number] stands for the policy of its
    [else] branch, the numbered duplicate name. *)
Inductive LogFileDisplay := DateTime | Number.

Global Instance LogMode_eq_dec : EqDecision LogMode.
Proof. solve_decision. Defined.

Global Instance LogFileDisplay_eq_dec : EqDecision LogFileDisplay.
Proof. solve_decision. Defined.

Class Enumerators := {
  LogLevel_value : LogLevel -> Z;
  LogMessageDisplay_LogLevel : Z;
  LogMessageDisplay_ModuleName : Z;
  LogMessageDisplay_DateTime : Z;
  LogMessageDisplay_ThreadId : Z;
  LogMessageDisplay_Function : Z;
  LogMessageDisplay_File : Z;
  LogMessageDisplay_Line : Z;
  LogMessageDisplay_Message : Z;
  LogMessageDisplay_Default : Z }.

(** [QFlags::testFlag]: all bits of [flag] are set in [i]; the zero flag is
    only contained in the zero set. *)
Definition testFlag (i flag : Z) : bool :=
  (Z.land i flag =? flag) && (negb (flag =? 0) || (i =? flag)).

(** [operator<=] of the scoped enumeration [LogLevel]. *)
Definition LogLevel_le `{Enumerators} (a b : LogLevel) : bool :=
  LogLevel_value a <=? LogLevel_value b.

Definition levelToText (level : LogLevel) : string :=
  match level with
  | Trace => "Trace"
  | Debug => "Debug"
  | Info => "Info"
  | Warning => "Warning"
  | Error => "Error"
  | Fatal => "Fatal"
  end.

(** ** The writer object and its environment *)

Record QLoggerWriter := mkWriter {
  mFileDestinationFolder : string;
  mFileDestination : string;
  mFileSuffixIfFull : LogFileDisplay;
  mMode : LogMode;
  mLevel : LogLevel;
  mMessageOptions : Z;
  mMaxFileSize : Z;
  mMessages : list string;
  mQuit : bool;
  mIsStop : bool;
  currentDate : QDate;
  writeMSec : Z;
  wakeUpTime : Z;          (* reading of the monotonic clock at [start()] *)
  lastActive : QDateTime }.

(** The environment. [files] maps a path to the text of the file there;
    [locked] are the paths the system refuses to rename and [unwritable]
    the paths it refuses to open for appending. The two clocks are
    sequences of readings, [ticks] counting the readings taken so far.
    [zipRuns] records the argument list of every 7z process started and
    [zipOutcome k] is what the [k]-th of them reports
    ([waitForFinished], [exitStatus]); the archive 7z may leave on disk is
    not tracked, no member function looks at it. [wakes] counts the calls
    of [mQueueNotEmpty.wakeAll()], and [textDate] is the default
    [QDateTime::toString()] of the locale. *)
Record World := mkWorld {
  files : gmap string string;
  locked : gset string;
  unwritable : gset string;
  console : list string;
  wallClock : nat -> QDateTime;
  monoClock : nat -> Z;
  ticks : nat;
  zipRuns : list (list string);
  zipOutcome : nat -> bool * bool;
  wakes : nat;
  textDate : QDateTime -> string }.

Record Sys := mkSys { self : QLoggerWriter; env : World }.

Definition set_mMessages (v : list string) (w : QLoggerWriter) :=
  mkWriter (mFileDestinationFolder w) (mFileDestination w)
    (mFileSuffixIfFull w) (mMode w) (mLevel w) (mMessageOptions w)
    (mMaxFileSize w) v (mQuit w) (mIsStop w) (currentDate w) (writeMSec w)
    (wakeUpTime w) (lastActive w).

Definition set_mMode (v : LogMode) (w : QLoggerWriter) :=
  mkWriter (mFileDestinationFolder w) (mFileDestination w)
    (mFileSuffixIfFull w) v (mLevel w) (mMessageOptions w)
    (mMaxFileSize w) (mMessages w) (mQuit w) (mIsStop w) (currentDate w)
    (writeMSec w) (wakeUpTime w) (lastActive w).

Definition set_mQuit (v : bool) (w : QLoggerWriter) :=
  mkWriter (mFileDestinationFolder w) (mFileDestination w)
    (mFileSuffixIfFull w) (mMode w) (mLevel w) (mMessageOptions w)
    (mMaxFileSize w) (mMessages w) v (mIsStop w) (currentDate w) (writeMSec w)
    (wakeUpTime w) (lastActive w).

Definition set_currentDate (v : QDate) (w : QLoggerWriter) :=
  mkWriter (mFileDestinationFolder w) (mFileDestination w)
    (mFileSuffixIfFull w) (mMode w) (mLevel w) (mMessageOptions w)
    (mMaxFileSize w) (mMessages w) (mQuit w) (mIsStop w) v (writeMSec w)
    (wakeUpTime w) (lastActive w).

Definition set_wakeUpTime (v : Z) (w : QLoggerWriter) :=
  mkWriter (mFileDestinationFolder w) (mFileDestination w)
    (mFileSuffixIfFull w) (mMode w) (mLevel w) (mMessageOptions w)
    (mMaxFileSize w) (mMessages w) (mQuit w) (mIsStop w) (currentDate w)
    (writeMSec w) v (lastActive w).

Definition set_lastActive (v : QDateTime) (w : QLoggerWriter) :=
  mkWriter (mFileDestinationFolder w) (mFileDestination w)
    (mFileSuffixIfFull w) (mMode w) (mLevel w) (mMessageOptions w)
    (mMaxFileSize w) (mMessages w) (mQuit w) (mIsStop w) (currentDate w)
    (writeMSec w) (wakeUpTime w) v.

Definition set_files (v : gmap string string) (e : World) :=
  mkWorld v (locked e) (unwritable e) (console e) (wallClock e) (monoClock e)
    (ticks e) (zipRuns e) (zipOutcome e) (wakes e) (textDate e).

Definition set_console (v : list string) (e : World) :=
  mkWorld (files e) (locked e) (unwritable e) v (wallClock e) (monoClock e)
    (ticks e) (zipRuns e) (zipOutcome e) (wakes e) (textDate e).

Definition set_ticks (v : nat) (e : World) :=
  mkWorld (files e) (locked e) (unwritable e) (console e) (wallClock e)
    (monoClock e) v (zipRuns e) (zipOutcome e) (wakes e) (textDate e).

Definition set_zipRuns (v : list (list string)) (e : World) :=
  mkWorld (files e) (locked e) (unwritable e) (console e) (wallClock e)
    (monoClock e) (ticks e) v (zipOutcome e) (wakes e) (textDate e).

Definition set_wakes (v : nat) (e : World) :=
  mkWorld (files e) (locked e) (unwritable e) (console e) (wallClock e)
    (monoClock e) (ticks e) (zipRuns e) (zipOutcome e) v (textDate e).

(** ** Function bodies

    A statement either falls through with a value ([Next]) or leaves the
    function with its result ([Return]); the statements after a [Return]
    are skipped. *)

Inductive Flow (R A : Type) : Type :=
  | Next (a : A)
  | Return (r : R).

Arguments Next {R A} a.
Arguments Return {R A} r.

Definition Body (R A : Type) : Type := Sys -> Flow R A * Sys.

Definition pure {R A} (a : A) : Body R A := fun s => (Next a, s).

Definition ret {R A} (r : R) : Body R A := fun s => (Return r, s).

Definition bind {R A B} (m : Body R A) (k : A -> Body R B) : Body R B :=
  fun s =>
    match m s with
    | (Next a, s') => k a s'
    | (Return r, s') => (Return r, s')
    end.

Notation "'var' x <~ m ;; k" := (bind m (fun x => k))
  (at level 10, x name, m at level 99, k at level 200).
Notation "'exec' m ;; k" := (bind m (fun _ => k))
  (at level 10, m at level 99, k at level 200).

(** A function whose body is [b]: falling off the end yields the value of
    the last statement. *)
Definition returning {A} (b : Body A A) (s : Sys) : A * Sys :=
  match b s with
  | (Next a, s') => (a, s')
  | (Return a, s') => (a, s')
  end.

(** A call of a member function from inside another body. *)
Definition call {R A} (f : Sys -> A * Sys) : Body R A :=
  fun s => let (a, s') := f s in (Next a, s').

Definition this {R} : Body R QLoggerWriter := fun s => (Next (self s), s).

Definition world {R} : Body R World := fun s => (Next (env s), s).

Definition update {R} (f : QLoggerWriter -> QLoggerWriter) : Body R unit :=
  fun s => (Next tt, mkSys (f (self s)) (env s)).

Definition effect {R} (f : World -> World) : Body R unit :=
  fun s => (Next tt, mkSys (self s) (f (env s))).

Definition when {R} (c : bool) (b : Body R unit) : Body R unit :=
  if c then b else pure tt.

Fixpoint forEach {R A} (l : list A) (f : A -> Body R unit) : Body R unit :=
  match l with
  | [] => pure tt
  | x :: r => exec f x ;; forEach r f
  end.

(** ** Operations of the environment *)

Definition LF : string := String "010"%char "".

Definition currentDateTime {R} : Body R QDateTime :=
  fun s =>
    (Next (wallClock (env s) (ticks (env s))),
     mkSys (self s) (set_ticks (S (ticks (env s))) (env s))).

(** A reading of the monotonic clock behind [QElapsedTimer], in ms. *)
Definition monotonic {R} : Body R Z :=
  fun s =>
    (Next (monoClock (env s) (ticks (env s))),
     mkSys (self s) (set_ticks (S (ticks (env s))) (env s))).

Definition exists_on (fs : gmap string string) (path : string) : bool :=
  bool_decide (is_Some (fs !! path)).

(** [QFile::rename(oldName, newName)]: refused when the old file is
    missing or locked, or when the new name is taken. *)
Definition QFile_rename {R} (oldName newName : string) : Body R bool :=
  var e <~ world ;;
  match files e !! oldName with
  | Some text =>
      if bool_decide (oldName ∈ locked e) || exists_on (files e) newName
      then pure false
      else
        exec effect (set_files (<[newName := text]> (delete oldName (files e)))) ;;
        pure true
  | None => pure false
  end.

(** [QFile::open(ReadWrite | Text | Append)]: creates a missing file. *)
Definition QFile_open {R} (path : string) : Body R bool :=
  var e <~ world ;;
  if bool_decide (path ∈ unwritable e) then pure false
  else
    exec when (negb (exists_on (files e) path))
              (effect (set_files (<[path := ""]> (files e)))) ;;
    pure true.

Definition QFile_size {R} (path : string) : Body R Z :=
  var e <~ world ;;
  pure (QString.size (default "" (files e !! path))).

(** [out << text] on a stream over the file opened for appending. *)
Definition QTextStream_out {R} (path text : string) : Body R unit :=
  effect (fun e =>
    set_files (<[path := default "" (files e !! path) +:+ text]> (files e)) e).

(** [qInfo() << text] *)
Definition qInfo {R} (text : string) : Body R unit :=
  effect (fun e => set_console (console e ++ [text]) e).

(** [mQueueNotEmpty.wakeAll()] *)
Definition wakeAll {R} : Body R unit :=
  effect (fun e => set_wakes (S (wakes e)) e).

(** ** Member functions of QLoggerWriter *)

(** [QDir dir(path)] keeps the path without one slash at its end, the
    path of one character apart. *)
Definition QDir_path (path : string) : string :=
  if QString.endsWith "/" path && (1 <? QString.size path)
  then QString.left (String.length path - 1)%nat path
  else path.

(** [dir.filePath(fileName)]: an absolute name as it is, the path of the
    directory for the empty name, else the name behind the path, with a
    slash in between unless the path is empty or ends with one. *)
Definition QDir_filePath (path fileName : string) : string :=
  let dir := QDir_path path in
  if QString.startsWith "/" fileName then fileName
  else if QString.isEmpty fileName then dir
  else if QString.isEmpty dir || QString.endsWith "/" dir
       then dir +:+ fileName
       else dir +:+ "/" +:+ fileName.

(** The destination path the constructor computes from the folder and the
    file name it is given ([today] is the text of the current date in the
    format yyyy-MM-dd, [cwd] is [QDir::currentPath()]). The name given is
    put behind the folder as text; the dated name of the empty case goes
    through [QDir::filePath]. *)
Definition constructor_destination (cwd today fileDestination
    fileFolderDestination : string) : string :=
  let mFileDestinationFolder :=
    if QString.isEmpty fileFolderDestination then cwd +:+ "/logs/"
    else fileFolderDestination in
  let mFileDestinationFolder :=
    if QString.endsWith "/" mFileDestinationFolder then mFileDestinationFolder
    else mFileDestinationFolder +:+ "/" in
  let mFileDestination := mFileDestinationFolder +:+ fileDestination in
  if QString.isEmpty fileDestination
  then QDir_filePath mFileDestinationFolder (QString.arg "%1.log" [today])
  else if negb (QString.contains "." fileDestination)
       then mFileDestination +:+ ".log"
       else mFileDestination.

(** The 7z process is started and waited for; what is recorded of it is
    its command line, and what the writer reads of it is whether it
    finished and how it exited. The files the process itself reads and
    writes, the archive among them, are outside [files]. *)
Definition zipFileCustom (path : string) : Sys -> string * Sys :=
  returning (
    var t0 <~ monotonic ;;
    let archiveName := QString.mid 0 (QString.size path - 4) path +:+ ".7z" in
    let param := ["a"; "-t7z"; "-mx9"; archiveName; path] in
    let pathExe := "7z" in
    var e <~ world ;;
    let '(res, exitStatus) := zipOutcome e (length (zipRuns e)) in
    exec effect (fun e => set_zipRuns (zipRuns e ++ [pathExe :: param]) e) ;;
    var t1 <~ monotonic ;;
    pure (QString.arg "%1 to archive : %2. %3. Time::%4"
            [path; archiveName;
             QString.arg "finished: %1, %2"
               [if res then "yes" else "no";
                if exitStatus then "The process crashed"
                else "The process exited normall"];
             QString.number (t1 - t0)])).

(** The name tried with suffix number [n]. *)
Definition duplicateName (fileDestination fileExtension : string)
    (fileSuffixNumber : Z) : string :=
  if 1 <? fileSuffixNumber
  then QString.arg "%1(%2).%3"
         [fileDestination; QString.number fileSuffixNumber; fileExtension]
  else fileDestination +:+ QString.arg ".%1" [fileExtension].

(** [generateDuplicateFilename] only reads which files exist. The source
    is recursive without a bound; [depth] is the number of nested calls
    allowed, [None] meaning that the recursion did not come back within
    them. *)
Fixpoint generateDuplicateFilename (depth : nat) (fs : gmap string string)
    (fileDestination fileExtension : string) (fileSuffixNumber : Z)
    : option string :=
  match depth with
  | O => None
  | S d =>
      let path := duplicateName fileDestination fileExtension fileSuffixNumber in
      if exists_on fs path
      then generateDuplicateFilename d fs fileDestination fileExtension
             (fileSuffixNumber + 1)
      else Some path
  end.

(** [setLogMode]: the folder it creates and the worker thread it starts
    are outside the state. *)
Definition setLogMode (mode : LogMode) : Sys -> unit * Sys :=
  returning (update (set_mMode mode)).

(** The first statement of [renameFileIfFull]. *)
Definition sameDay : Body string unit :=
  var w <~ this ;;
  var now <~ currentDateTime ;;
  if bool_decide (currentDate w = date now) then ret "" else pure tt.

(** The block marked "QLogger commit": the day-based rotation. *)
Definition dateRotation {A} : Body string A :=
  var w <~ this ;;
  let newName :=
    QString.insert (QString.size (mFileDestination w) - 4)
      (QDateFormat.underscores (currentDate w)) (mFileDestination w) in
  var renamed <~ QFile_rename (mFileDestination w) newName ;;
  exec (if negb renamed then ret "" else pure tt) ;;
  var now <~ currentDateTime ;;
  exec update (set_currentDate (date now)) ;;
  var w <~ this ;;
  exec (if mQuit w then ret newName else pure tt) ;;
  var status <~ call (zipFileCustom newName) ;;
  ret status.

(** The statements after that block: "Rename file if it's full". The
    call of [generateDuplicateFilename] starts at suffix number 1. *)
Definition sizeRotation : Body string unit :=
  var w <~ this ;;
  var fileSize <~ QFile_size (mFileDestination w) ;;
  if mMaxFileSize w <=? fileSize then
    let dot := QString.lastIndexOf "." (mFileDestination w) in
    let fileDestination := QString.leftZ dot (mFileDestination w) in
    let fileExtension := QString.mid (dot + 1) (-1) (mFileDestination w) in
    var newName <~
      (if bool_decide (mFileSuffixIfFull w = DateTime)
       then
         var now <~ currentDateTime ;;
         pure (QString.arg "%1_%2.%3"
                 [fileDestination; QDateFormat.suffix now; fileExtension])
       else
         var e <~ world ;;
         pure (default ""
                 (generateDuplicateFilename (S (size (files e))) (files e)
                    fileDestination fileExtension 1))) ;;
    var renamed <~ QFile_rename (mFileDestination w) newName ;;
    ret (if renamed then newName else "")
  else pure tt.

Definition renameFileIfFull : Sys -> string * Sys :=
  returning (
    exec sameDay ;;
    exec @dateRotation unit ;;
    exec sizeRotation ;;
    ret "").

(** The same function without the statements that follow the
    "QLogger commit" block. *)
Definition renameFileIfFull_byDate : Sys -> string * Sys :=
  returning (
    exec sameDay ;;
    dateRotation).

Definition write (messages : list string) : Sys -> unit * Sys :=
  returning (
    var w <~ this ;;
    exec (if bool_decide (mMode w = OnlyConsole)
          then exec forEach messages qInfo ;; ret tt
          else pure tt) ;;
    var prevFilename <~ call renameFileIfFull ;;
    var opened <~ QFile_open (mFileDestination w) ;;
    when opened (
      exec when (negb (QString.isEmpty prevFilename))
        (QTextStream_out (mFileDestination w)
           (QString.arg ("Previous log %1" +:+ LF) [prevFilename])) ;;
      forEach messages (fun message =>
        exec QTextStream_out (mFileDestination w) message ;;
        when (bool_decide (mMode w = Full)) (qInfo message)))).

Section Enqueue.
Context `{Enumerators}.

(** The [fileLine] text of [enqueue]. *)
Definition enqueue_fileLine (mMessageOptions : Z) (mLevel : LogLevel)
    (function fileName : string) (line : Z) : string :=
  if testFlag mMessageOptions LogMessageDisplay_File
     && testFlag mMessageOptions LogMessageDisplay_Line
     && negb (QString.isEmpty fileName) && (0 <? line)
     && LogLevel_le mLevel Debug
  then QString.arg "{%1:%2}" [fileName; QString.number line]
  else if testFlag mMessageOptions LogMessageDisplay_File
          && testFlag mMessageOptions LogMessageDisplay_Function
          && negb (QString.isEmpty fileName)
          && negb (QString.isEmpty function)
          && LogLevel_le mLevel Debug
  then QString.arg "{%1}{%2}" [fileName; function]
  else "".

(** The branch of [enqueue] taken when [testFlag(Default)] fails: the
    appends to [text], one after the other. *)
Definition enqueue_compose (mMessageOptions : Z) (date : QDateTime)
    (threadId module : string) (level : LogLevel)
    (fileLine message : string) : string :=
  let text := "" in
  let text :=
    if testFlag mMessageOptions LogMessageDisplay_LogLevel
    then text +:+ QString.arg "[%1]" [levelToText level] else text in
  let text :=
    if testFlag mMessageOptions LogMessageDisplay_ModuleName
    then text +:+ QString.arg "[%1]" [module] else text in
  let text :=
    if testFlag mMessageOptions LogMessageDisplay_DateTime
    then text +:+ QString.arg "[%1]" [QDateFormat.stamp date] else text in
  let text :=
    if testFlag mMessageOptions LogMessageDisplay_ThreadId
    then text +:+ QString.arg "[%1]" [threadId] else text in
  let text :=
    if negb (QString.isEmpty fileLine)
    then
      let fileLine :=
        if QString.startsWith " " fileLine then QString.right 1 fileLine
        else fileLine in
      text +:+ fileLine
    else text in
  if testFlag mMessageOptions LogMessageDisplay_Message
  then
    if QString.isEmpty text || QString.endsWith " " text
    then text +:+ QString.arg "%1" [message]
    else text +:+ QString.arg " %1" [message]
  else text.

(** The [text] of [enqueue] before the line feed is appended. *)
Definition enqueue_text (mMessageOptions : Z) (mLevel : LogLevel)
    (date : QDateTime) (threadId module : string) (level : LogLevel)
    (function fileName : string) (line : Z) (message : string) : string :=
  let fileLine :=
    enqueue_fileLine mMessageOptions mLevel function fileName line in
  if testFlag mMessageOptions LogMessageDisplay_Default
  then QString.arg "[%1][%2][%3][%4]%5 %6"
         [levelToText level; module; QDateFormat.stamp date; threadId;
          fileLine; message]
  else enqueue_compose mMessageOptions date threadId module level
         fileLine message.

Definition enqueue (date : QDateTime) (threadId module : string)
    (level : LogLevel) (function fileName : string) (line : Z)
    (message : string) : Sys -> unit * Sys :=
  returning (
    var w <~ this ;;
    exec (if bool_decide (mMode w = Disabled) then ret tt else pure tt) ;;
    let text :=
      enqueue_text (mMessageOptions w) (mLevel w) date threadId module
        level function fileName line message in
    let text := text +:+ LF in
    exec update (fun w => set_mMessages (mMessages w ++ [text]) w) ;;
    var elapsed <~ (var t <~ monotonic ;; pure (t - wakeUpTime w)) ;;
    when (writeMSec w <? elapsed) (
      exec when (negb (mIsStop w)) wakeAll ;;
      var t <~ monotonic ;;
      update (set_wakeUpTime t))).

End Enqueue.

(** One turn of the loop of [run]: the queue is swapped out, written, and
    the time of the last activity noted. *)
Definition run_turn : Sys -> unit * Sys :=
  returning (
    var w <~ this ;;
    let copy := mMessages w in
    exec update (set_mMessages []) ;;
    exec call (write copy) ;;
    var now <~ currentDateTime ;;
    update (set_lastActive now)).

Definition closeDestination : Sys -> unit * Sys :=
  returning (
    var w <~ this ;;
    exec when (negb (bool_decide (mMessages w = [])))
      (let copy := mMessages w in
       exec update (set_mMessages []) ;;
       call (write copy)) ;;
    var now <~ currentDateTime ;;
    var e <~ world ;;
    let closed := ([] ++ [QString.arg ("Closed %1 " +:+ LF) [textDate e now]])%list in
    exec call (write closed) ;;
    exec update (set_mQuit true) ;;
    wakeAll).

(** The calls a writer receives between its construction and its
    destruction, as steps of the whole state ([forcePush] only signals the
    worker, whose turns are steps of their own). *)
Inductive step `{Enumerators} : Sys -> Sys -> Prop :=
  | step_enqueue date threadId module level function fileName line message s :
      step s (enqueue date threadId module level function fileName line
                message s).2
  | step_setLogMode mode s : step s (setLogMode mode s).2
  | step_run s : step s (run_turn s).2
  | step_close s : step s (closeDestination s).2.

Inductive reachable `{Enumerators} (s0 : Sys) : Sys -> Prop :=
  | reach_start : reachable s0 s0
  | reach_step s s' : reachable s0 s -> step s s' -> reachable s0 s'.

(** ** A concrete setting

    A bit per display flag, [Default] being all of them but [Function],
    and the levels numbered in the order of [levelToText]. *)
Module Sample.

Definition enumerators : Enumerators := {|
  LogLevel_value l :=
    match l with
    | Trace => 0 | Debug => 1 | Info => 2 | Warning => 3 | Error => 4
    | Fatal => 5
    end;
  LogMessageDisplay_LogLevel := 1;
  LogMessageDisplay_ModuleName := 2;
  LogMessageDisplay_DateTime := 4;
  LogMessageDisplay_ThreadId := 8;
  LogMessageDisplay_Function := 16;
  LogMessageDisplay_File := 32;
  LogMessageDisplay_Line := 64;
  LogMessageDisplay_Message := 128;
  LogMessageDisplay_Default := 1 + 2 + 4 + 8 + 32 + 64 + 128 |}.

Definition Default : Z := @LogMessageDisplay_Default enumerators.

Definition noon (d : QDate) : QDateTime := mkDateTime d 12 0 0 0.

Definition may1 : QDate := mkDate 2024 5 1.
Definition may2 : QDate := mkDate 2024 5 2.

Definition writer (dest : string) (mode : LogMode) (level : LogLevel)
    (options : Z) (queue : list string) (quit : bool) (tracked : QDate)
    : QLoggerWriter :=
  mkWriter "logs/" dest Number mode level options 1048576 queue quit false
    tracked 1000 0 (noon tracked).

(** A world in which it is noon of [today] at every reading. *)
Definition worldAt (today : QDate) (fs : gmap string string)
    (noRename noOpen : gset string) : World :=
  mkWorld fs noRename noOpen [] (fun _ => noon today)
    (fun k => Z.of_nat k) 0 [] (fun _ => (true, false)) 0
    (fun _ => "Thu May 2 12:00:00 2024").

(** The destination logs/app.log, last written on May 1, met on May 2. *)
Definition nextDay (fs : gmap string string) (noRename noOpen : gset string)
    (mode : LogMode) (queue : list string) (quit : bool) : Sys :=
  mkSys (writer "logs/app.log" mode Debug Default queue quit may1)
        (worldAt may2 fs noRename noOpen).

End Sample.

(** ** The formatter in the words of the specification

    The custom composition, stated on its own to compare [enqueue] with:
    the enabled fields in the order Level, Module, Timestamp, ThreadId,
    file/function segment, each in its brackets, and then the message,
    after one space unless nothing precedes it or a space does. *)

Definition concatLines (l : list string) : string := foldr String.append "" l.

Definition spec_fields `{Enumerators} (options : Z) (date : QDateTime)
    (threadId module : string) (level : LogLevel) (segment : string)
    : list string :=
  ((if testFlag options LogMessageDisplay_LogLevel
    then ["[" +:+ levelToText level +:+ "]"] else []) ++
   (if testFlag options LogMessageDisplay_ModuleName
    then ["[" +:+ module +:+ "]"] else []) ++
   (if testFlag options LogMessageDisplay_DateTime
    then ["[" +:+ QDateFormat.stamp date +:+ "]"] else []) ++
   (if testFlag options LogMessageDisplay_ThreadId
    then ["[" +:+ threadId +:+ "]"] else []) ++
   (if QString.isEmpty segment then [] else [segment]))%list.

Definition spec_compose `{Enumerators} (options : Z) (date : QDateTime)
    (threadId module : string) (level : LogLevel) (segment message : string)
    : string :=
  let head :=
    concatLines (spec_fields options date threadId module level segment) in
  if testFlag options LogMessageDisplay_Message
  then if QString.isEmpty head || QString.endsWith " " head
       then head +:+ message
       else head +:+ " " +:+ message
  else head.

(** The state after one reading of a clock. *)
Definition tick (s : Sys) : Sys :=
  mkSys (self s) (set_ticks (S (ticks (env s))) (env s)).

(** The name [renameFileIfFull] renames the destination to. *)
Definition rotatedName (w : QLoggerWriter) : string :=
  QString.insert (QString.size (mFileDestination w) - 4)
    (QDateFormat.underscores (currentDate w)) (mFileDestination w).

(** [QFile::rename] refuses. *)
Definition renameRefused (e : World) (oldName newName : string) : bool :=
  negb (exists_on (files e) oldName)
  || bool_decide (oldName ∈ locked e) || exists_on (files e) newName.

(** What the writer never changes about itself and its environment. *)
Definition sameSetting (s s' : Sys) : Prop :=
  mFileDestination (self s') = mFileDestination (self s)
  /\ mMode (self s') = mMode (self s)
  /\ mLevel (self s') = mLevel (self s)
  /\ mMessageOptions (self s') = mMessageOptions (self s)
  /\ locked (env s') = locked (env s)
  /\ unwritable (env s') = unwritable (env s)
  /\ wallClock (env s') = wallClock (env s)
  /\ textDate (env s') = textDate (env s).

Definition newlineTerminated (line : string) : Prop :=
  QString.endsWith "010" line = true.

(** The state after a successful rename in [renameFileIfFull]: the text of
    the destination now lives under the rotated name, the tracked date is
    the date of the second clock reading. *)
Definition rotated (s : Sys) : Sys :=
  mkSys
    (set_currentDate (date (wallClock (env s) (S (ticks (env s))))) (self s))
    (set_ticks (S (S (ticks (env s))))
       (set_files
          (<[rotatedName (self s) :=
               default "" (files (env s) !! mFileDestination (self s))]>
             (delete (mFileDestination (self s)) (files (env s))))
          (env s))).

(** The archive name, status text and process record of [zipFileCustom]. *)
Definition archiveName (path : string) : string :=
  QString.mid 0 (QString.size path - 4) path +:+ ".7z".

Definition zipStatus (path : string) (outcome : bool * bool) (elapsed : Z) : string :=
  QString.arg "%1 to archive : %2. %3. Time::%4"
    [path; archiveName path;
     QString.arg "finished: %1, %2"
       [if outcome.1 then "yes" else "no";
        if outcome.2 then "The process crashed"
        else "The process exited normall"];
     QString.number elapsed].

Definition zipped (path : string) (s : Sys) : Sys :=
  mkSys (self s)
    (set_ticks (S (S (ticks (env s))))
       (set_zipRuns
          (zipRuns (env s) ++ [["7z"; "a"; "-t7z"; "-mx9"; archiveName path; path]])
          (env s))).

(** The line [write] puts before the batch after a rotation. *)
Definition previousLogLine (prevFilename : string) : string :=
  if QString.isEmpty prevFilename then ""
  else "Previous log " +:+ prevFilename +:+ LF.

(** The state after [text] is appended to the file at [path] and the
    lines [mirror] are printed on the console. *)
Definition appendTo (path text : string) (mirror : list string) (s : Sys) : Sys :=
  mkSys (self s)
    (set_console (console (env s) ++ mirror)
       (set_files
          (<[path := default "" (files (env s) !! path) +:+ text]>
             (files (env s)))
          (env s))).

(** The terminal line of [closeDestination], [t] being the text of the
    time. *)
Definition closedLine (t : string) : string := "Closed " +:+ t +:+ " " +:+ LF.

(** No rename can succeed in [s] on the day [today]: the tracked date is
    [today] already, or the destination is locked or the rotated name
    taken. *)
Definition noRotationDue (today : QDate) (s : Sys) : Prop :=
  currentDate (self s) = today
  \/ bool_decide (mFileDestination (self s) ∈ locked (env s))
     || exists_on (files (env s)) (rotatedName (self s)) = true.

(** The [Default] composite shows the five fields of the fixed layout: a
    condition on the values QLoggerLevel.h gives the flags. *)
Definition DefaultShowsFields `{Enumerators} : Prop :=
  testFlag LogMessageDisplay_Default LogMessageDisplay_LogLevel = true
  /\ testFlag LogMessageDisplay_Default LogMessageDisplay_ModuleName = true
  /\ testFlag LogMessageDisplay_Default LogMessageDisplay_DateTime = true
  /\ testFlag LogMessageDisplay_Default LogMessageDisplay_ThreadId = true
  /\ testFlag LogMessageDisplay_Default LogMessageDisplay_Message = true.

(** ** The idle flush and sequences of calls *)

Section ForcePush.
(** [QDateTime::secsTo] of Qt: the seconds from one time to another. *)
Variable secsTo : QDateTime -> QDateTime -> Z.

Definition forcePush : Sys -> unit * Sys :=
  returning (
    var w <~ this ;;
    when (0 <? Z.of_nat (length (mMessages w))) (
      var now <~ currentDateTime ;;
      let r := secsTo (lastActive w) now in
      when (5 <? r) wakeAll)).

End ForcePush.

(** The arguments of one call of [enqueue]. *)
Record LogCall := mkCall {
  call_date : QDateTime;
  call_threadId : string;
  call_module : string;
  call_level : LogLevel;
  call_function : string;
  call_fileName : string;
  call_line : Z;
  call_message : string }.

(** The state after the call [c] of [enqueue]. *)
Definition enqueueCall `{Enumerators} (c : LogCall) (s : Sys) : Sys :=
  (enqueue (call_date c) (call_threadId c) (call_module c) (call_level c)
     (call_function c) (call_fileName c) (call_line c) (call_message c) s).2.

(** The state after the calls of [calls], first to last. *)
Definition enqueueAll `{Enumerators} (calls : list LogCall) (s : Sys) : Sys :=
  foldl (fun s c => enqueueCall c s) s calls.

(** The element the writer [w] queues for the call [c]. *)
Definition queuedLine `{Enumerators} (w : QLoggerWriter) (c : LogCall)
    : string :=
  enqueue_text (mMessageOptions w) (mLevel w) (call_date c) (call_threadId c)
    (call_module c) (call_level c) (call_function c) (call_fileName c)
    (call_line c) (call_message c) +:+ LF.

(** [s'] is [s] but for the queue, the start of the wake-up timer, the
    count of wake-ups and the clock readings taken. *)
Definition sameButQueue (s s' : Sys) : Prop :=
  set_wakeUpTime (wakeUpTime (self s))
    (set_mMessages (mMessages (self s)) (self s')) = self s
  /\ set_wakes (wakes (env s)) (set_ticks (ticks (env s)) (env s')) = env s.

(** * Properties *)

(** ** Strings *)

Module StringFacts.

Lemma app_cons c a b : String c a +:+ b = String c (a +:+ b).
Proof. done. Qed.

Lemma app_nil_l s : "" +:+ s = s.
Proof. done. Qed.

Lemma app_nil_r s : s +:+ "" = s.
Proof. induction s as [|c s IH]; [done|]. by rewrite app_cons, IH. Qed.

Lemma app_assoc a b c : (a +:+ b) +:+ c = a +:+ (b +:+ c).
Proof. induction a as [|x a IH]; [done|]. by rewrite !app_cons, IH. Qed.

Lemma length_app a b :
  String.length (a +:+ b) = (String.length a + String.length b)%nat.
Proof. induction a as [|x a IH]; [done|]. rewrite app_cons. cbn. by rewrite IH. Qed.

Lemma app_inv_tail a b t : a +:+ t = b +:+ t -> a = b.
Proof.
  revert b. induction a as [|x a IH]; intros [|y b] Heq; [done| | |].
  - apply (f_equal String.length) in Heq.
    rewrite app_nil_l, app_cons in Heq. cbn in Heq.
    rewrite length_app in Heq. lia.
  - apply (f_equal String.length) in Heq.
    rewrite app_nil_l, app_cons in Heq. cbn in Heq.
    rewrite length_app in Heq. lia.
  - rewrite !app_cons in Heq. injection Heq as -> Heq. f_equal. by apply IH.
Qed.

Lemma left_app a b : QString.left (String.length a) (a +:+ b) = a.
Proof.
  induction a as [|x a IH]; [by destruct b|].
  rewrite app_cons. cbn. by rewrite IH.
Qed.

Lemma dropLeft_app a b : QString.dropLeft (String.length a) (a +:+ b) = b.
Proof.
  induction a as [|x a IH]; [by destruct b|]. rewrite app_cons. exact IH.
Qed.

Lemma isPrefixOf_app p s : QString.isPrefixOf p (p +:+ s) = true.
Proof.
  induction p as [|x p IH]; [by destruct s|]. rewrite app_cons. cbn.
  rewrite bool_decide_eq_true_2 by done. exact IH.
Qed.

Lemma contains_prefix p s : QString.contains p (p +:+ s) = true.
Proof.
  destruct (p +:+ s) eqn:E; cbn; rewrite <- E, isPrefixOf_app; done.
Qed.

Lemma contains_skip sub a t :
  QString.contains sub t = true -> QString.contains sub (a +:+ t) = true.
Proof.
  intros Ht. induction a as [|x a IH]; [done|].
  rewrite app_cons. cbn. rewrite IH. apply orb_true_r.
Qed.

Lemma contains_app pre sub post :
  QString.contains sub (pre +:+ sub +:+ post) = true.
Proof.
  induction pre as [|x pre IH].
  - rewrite app_nil_l. apply contains_prefix.
  - rewrite app_cons. cbn. rewrite IH. apply orb_true_r.
Qed.

Lemma app_not_nil s c t : s +:+ String c t <> "".
Proof. by destruct s. Qed.

Lemma endsWith_snoc c s : QString.endsWith c (s +:+ String c "") = true.
Proof.
  induction s as [|x s IH].
  - rewrite app_nil_l. cbn. by rewrite bool_decide_eq_true_2.
  - rewrite app_cons. cbn.
    destruct (s +:+ String c "") eqn:E; [|done].
    by apply app_not_nil in E.
Qed.

Lemma endsWith_app_snoc c s t :
  QString.endsWith c (s +:+ t +:+ String c "") = true.
Proof. rewrite <- app_assoc. apply endsWith_snoc. Qed.

Lemma endsWith_other c d s :
  c <> d -> QString.endsWith c (s +:+ String d "") = false.
Proof.
  intros Hne. induction s as [|x s IH].
  - rewrite app_nil_l. cbn. by rewrite bool_decide_eq_false_2.
  - rewrite app_cons. cbn.
    destruct (s +:+ String d "") eqn:E; [|done].
    by apply app_not_nil in E.
Qed.

Lemma insert_before_suffix base t tail :
  String.length tail = 4%nat ->
  QString.insert (QString.size (base +:+ tail) - 4) t (base +:+ tail)
  = base +:+ t +:+ tail.
Proof.
  intros Hlen. unfold QString.insert, QString.size.
  rewrite length_app, Hlen.
  replace (Z.of_nat (String.length base + 4) - 4)
    with (Z.of_nat (String.length base)) by lia.
  destruct (Z.ltb_spec (Z.of_nat (String.length base)) 0) as [?|_]; [lia|].
  by rewrite Nat2Z.id, left_app, dropLeft_app.
Qed.

End StringFacts.

Example arg_bracket x : QString.arg "[%1]" [x] = "[" +:+ x +:+ "]".
Proof. reflexivity. Qed.

Example arg_two a b :
  QString.arg "{%1:%2}" [a; b] = "{" +:+ a +:+ ":" +:+ b +:+ "}".
Proof. reflexivity. Qed.

Example padded_examples :
  QString.padded 2 7 = "07" /\ QString.padded 4 2024 = "2024"
  /\ QString.padded 3 45 = "045".
Proof. repeat split; vm_compute; reflexivity. Qed.

Example underscores_example :
  QDateFormat.underscores (mkDate 2024 5 1) = "_2024_05_01".
Proof. vm_compute. reflexivity. Qed.

Example constructor_keeps_extension :
  constructor_destination "/home/u" "2024-05-02" "app.json" ""
  = "/home/u/logs/app.json".
Proof. vm_compute. reflexivity. Qed.

Example constructor_dated_name :
  constructor_destination "/home/u" "2024-05-02" "" ""
  = "/home/u/logs/2024-05-02.log"
  /\ constructor_destination "/home/u" "2024-05-02" "" "logs//"
     = "logs/2024-05-02.log"
  /\ constructor_destination "/home/u" "2024-05-02" "" "/"
     = "/2024-05-02.log"
  /\ constructor_destination "/home/u" "2024-05-02" "app" "logs//"
     = "logs//app.log".
Proof. repeat split; vm_compute; reflexivity. Qed.

(** ** Running a body step by step *)

Lemma run_this {R B} (k : QLoggerWriter -> Body R B) s :
  bind this k s = k (self s) s.
Proof. done. Qed.
Lemma run_world {R B} (k : World -> Body R B) s :
  bind world k s = k (env s) s.
Proof. done. Qed.
Lemma run_pure {R A B} (a : A) (k : A -> Body R B) s :
  bind (pure a) k s = k a s.
Proof. done. Qed.
Lemma run_ret {R A B} (r : R) (k : A -> Body R B) s :
  bind (ret r) k s = (Return r, s).
Proof. done. Qed.
Lemma run_call {R A B} (f : Sys -> A * Sys) (k : A -> Body R B) s :
  bind (call f) k s = k (f s).1 (f s).2.
Proof. unfold bind, call. by destruct (f s). Qed.
Lemma run_update {R B} f (k : unit -> Body R B) s :
  bind (update f) k s = k tt (mkSys (f (self s)) (env s)).
Proof. done. Qed.
Lemma run_effect {R B} f (k : unit -> Body R B) s :
  bind (effect f) k s = k tt (mkSys (self s) (f (env s))).
Proof. done. Qed.
Lemma run_clock {R B} (k : QDateTime -> Body R B) s :
  bind currentDateTime k s = k (wallClock (env s) (ticks (env s))) (tick s).
Proof. done. Qed.
Lemma run_monotonic {R B} (k : Z -> Body R B) s :
  bind monotonic k s = k (monoClock (env s) (ticks (env s))) (tick s).
Proof. done. Qed.
Lemma run_assoc {R A B C} (m : Body R A) (k1 : A -> Body R B)
    (k2 : B -> Body R C) s :
  bind (bind m k1) k2 s = bind m (fun a => bind (k1 a) k2) s.
Proof. unfold bind. by destruct (m s) as [[a|r] s']. Qed.
Lemma run_next {R A B} (m : Body R A) (k : A -> Body R B) s a s' :
  m s = (Next a, s') -> bind m k s = k a s'.
Proof. unfold bind. by intros ->. Qed.

Create Rewrite HintDb run.
Hint Rewrite @run_this @run_world @run_pure @run_ret @run_call @run_update
  @run_effect @run_clock @run_monotonic @run_assoc : run.

Ltac run :=
  repeat (progress (autorewrite with run;
                    cbn [when negb default from_option id self env fst snd])).

(** ** The rotation step, case by case *)

Lemma zipFileCustom_eq path s :
  zipFileCustom path s =
  (zipStatus path (zipOutcome (env s) (length (zipRuns (env s))))
     (monoClock (env s) (S (ticks (env s)))
      - monoClock (env s) (ticks (env s))),
   zipped path s).
Proof.
  unfold zipFileCustom, returning, bind, monotonic, world, effect, pure.
  cbn [self env fst snd set_ticks ticks zipOutcome zipRuns monoClock
       set_zipRuns].
  destruct (zipOutcome (env s) (length (zipRuns (env s)))) as [res st].
  cbn [self env fst snd set_ticks ticks zipOutcome zipRuns monoClock
       set_zipRuns].
  unfold zipStatus, zipped, archiveName. cbn [fst snd].
  reflexivity.
Qed.

Lemma renameFileIfFull_refused s :
  currentDate (self s) <> date (wallClock (env s) (ticks (env s))) ->
  renameRefused (env s) (mFileDestination (self s)) (rotatedName (self s))
    = true ->
  renameFileIfFull s = ("", tick s).
Proof.
  intros Hd Hr.
  unfold renameFileIfFull, returning, bind, sameDay, this, currentDateTime.
  cbn.
  rewrite bool_decide_eq_false_2 by done. cbn.
  unfold dateRotation, bind, this, QFile_rename, world. cbn.
  unfold renameRefused, exists_on in Hr. fold (rotatedName (self s)).
  destruct (files (env s) !! mFileDestination (self s)) as [text|] eqn:Hf;
    cbn; [|done].
  rewrite bool_decide_eq_true_2 in Hr by eauto. cbn in Hr.
  unfold exists_on. rewrite Hr. done.
Qed.

Lemma renameFileIfFull_quit s :
  currentDate (self s) <> date (wallClock (env s) (ticks (env s))) ->
  renameRefused (env s) (mFileDestination (self s)) (rotatedName (self s))
    = false ->
  mQuit (self s) = true ->
  renameFileIfFull s = (rotatedName (self s), rotated s).
Proof.
  intros Hd Hr Hq.
  unfold renameFileIfFull, returning, bind, sameDay, this, currentDateTime.
  cbn.
  rewrite bool_decide_eq_false_2 by done. cbn.
  unfold dateRotation, bind, this, QFile_rename, world. cbn.
  unfold renameRefused, exists_on in Hr. fold (rotatedName (self s)).
  destruct (files (env s) !! mFileDestination (self s)) as [text|] eqn:Hf;
    cbn.
  2: { rewrite bool_decide_eq_false_2 in Hr; [done|]. by intros [? ?]. }
  rewrite bool_decide_eq_true_2 in Hr by eauto. cbn in Hr.
  unfold exists_on. rewrite Hr. cbn. rewrite Hq. cbn.
  unfold rotated. rewrite Hf. done.
Qed.

Lemma renameFileIfFull_zip s :
  currentDate (self s) <> date (wallClock (env s) (ticks (env s))) ->
  renameRefused (env s) (mFileDestination (self s)) (rotatedName (self s))
    = false ->
  mQuit (self s) = false ->
  renameFileIfFull s = zipFileCustom (rotatedName (self s)) (rotated s).
Proof.
  intros Hd Hr Hq.
  unfold renameFileIfFull, returning, bind, sameDay, this, currentDateTime.
  cbn.
  rewrite bool_decide_eq_false_2 by done. cbn.
  unfold dateRotation, bind, this, QFile_rename, world. cbn.
  unfold renameRefused, exists_on in Hr. fold (rotatedName (self s)).
  destruct (files (env s) !! mFileDestination (self s)) as [text|] eqn:Hf;
    cbn.
  2: { rewrite bool_decide_eq_false_2 in Hr; [done|]. by intros [? ?]. }
  rewrite bool_decide_eq_true_2 in Hr by eauto. cbn in Hr.
  unfold exists_on. rewrite Hr. cbn. rewrite Hq. cbn.
  unfold call, rotated. rewrite Hf. cbn.
  destruct (zipFileCustom _ _) as [st s'] eqn:Hz. done.
Qed.

(** ** The file writer *)

Lemma write_console messages s :
  mMode (self s) = OnlyConsole ->
  write messages s
  = (tt, mkSys (self s) (set_console (console (env s) ++ messages) (env s))).
Proof.
  intros Hm. unfold write, returning, bind, this. cbn.
  rewrite bool_decide_eq_true_2 by done. cbn.
  assert (forall l s0, forEach (R:=unit) l qInfo s0
     = (Next tt, mkSys (self s0) (set_console (console (env s0) ++ l) (env s0)))) as Hloop.
  { induction l as [|m l IH]; intros [w e].
    - cbn. rewrite app_nil_r. by destruct e.
    - cbn. unfold bind. cbn. rewrite IH. cbn. by rewrite <- app_assoc. }
  unfold bind. rewrite Hloop. done.
Qed.

Lemma write_loop d full messages : forall s cur,
  files (env s) !! d = Some cur ->
  forEach (R:=unit) messages (fun message =>
      exec QTextStream_out d message ;; when full (qInfo message)) s
  = (Next tt,
     mkSys (self s)
       (set_console (console (env s) ++ (if full then messages else []))
          (set_files (<[d := cur +:+ concatLines messages]> (files (env s)))
             (env s)))).
Proof.
  induction messages as [|m l IH]; intros [w e] cur Hcur.
  - cbn. cbn in Hcur. rewrite StringFacts.app_nil_r, insert_id by done.
    destruct full; rewrite ?app_nil_r; by destruct e.
  - cbn [forEach]. unfold bind at 1. unfold bind at 1.
    unfold QTextStream_out at 1. unfold effect at 1. cbn [self env].
    cbn in Hcur. rewrite Hcur. run.
    destruct full.
    + cbn [when]. unfold qInfo at 1, effect at 1. cbn [self env].
      rewrite (IH _ (cur +:+ m)); [|cbn; by rewrite lookup_insert_eq].
      cbn. rewrite insert_insert_eq, StringFacts.app_assoc, <- app_assoc. done.
    + cbn [when pure].
      rewrite (IH _ (cur +:+ m)); [|cbn; by rewrite lookup_insert_eq].
      cbn. rewrite insert_insert_eq, StringFacts.app_assoc. done.
Qed.

Lemma write_unopened messages s :
  mMode (self s) <> OnlyConsole ->
  mFileDestination (self s) ∈ unwritable (env (renameFileIfFull s).2) ->
  write messages s = (tt, (renameFileIfFull s).2).
Proof.
  intros Hm Hu. unfold write, returning, bind, this. cbn.
  rewrite bool_decide_eq_false_2 by done. cbn.
  unfold call. destruct (renameFileIfFull s) as [prev s1]. cbn in *.
  unfold QFile_open, bind, world. cbn.
  rewrite bool_decide_eq_true_2 by done. done.
Qed.

Lemma write_file messages s :
  mMode (self s) <> OnlyConsole ->
  mFileDestination (self s) ∉ unwritable (env (renameFileIfFull s).2) ->
  write messages s
  = (tt, appendTo (mFileDestination (self s))
           (previousLogLine (renameFileIfFull s).1 +:+ concatLines messages)
           (if bool_decide (mMode (self s) = Full) then messages else [])
           (renameFileIfFull s).2).
Proof.
  intros Hm Hu. unfold write, returning. run.
  rewrite (bool_decide_eq_false_2 (mMode (self s) = OnlyConsole)) by done. run.
  destruct (renameFileIfFull s) as [prev [w1 e1]]. cbn [fst snd self env] in *.
  unfold QFile_open. run. cbn [self env].
  rewrite (bool_decide_eq_false_2 (_ ∈ unwritable e1)) by done.
  set (d := mFileDestination (self s)).
  set (full := bool_decide (mMode (self s) = Full)).
  unfold appendTo, previousLogLine, exists_on. cbn [self env].
  assert (QString.arg ("Previous log %1" +:+ LF) [prev]
          = "Previous log " +:+ prev +:+ LF) as -> by reflexivity.
  destruct (files e1 !! d) as [cur|] eqn:Hcur;
    [rewrite (bool_decide_eq_true_2 (is_Some (Some cur))) by eauto
    |rewrite (bool_decide_eq_false_2 (is_Some (@None string)))
       by (by intros [? ?])];
    destruct (QString.isEmpty prev) eqn:Hp; run.
  - rewrite (write_loop _ _ _ _ cur) by exact Hcur. done.
  - unfold QTextStream_out at 1; run; cbn [self env].
    rewrite Hcur. run.
    rewrite (write_loop _ _ _ _ (cur +:+ "Previous log " +:+ prev +:+ LF))
      by apply lookup_insert_eq.
    cbn [self env files console set_files set_console].
    by rewrite insert_insert_eq, StringFacts.app_assoc.
  - rewrite (write_loop _ _ _ _ "") by apply lookup_insert_eq.
    cbn [self env files console set_files set_console].
    by rewrite insert_insert_eq.
  - unfold QTextStream_out at 1; run; cbn [self env files set_files].
    rewrite lookup_insert_eq. run.
    rewrite (write_loop _ _ _ _ ("" +:+ "Previous log " +:+ prev +:+ LF))
      by apply lookup_insert_eq.
    cbn [self env files console set_files set_console].
    by rewrite !insert_insert_eq, StringFacts.app_assoc.
Qed.

(** ** Rotation: the day-based block always returns *)

Lemma dateRotation_result A B (s : Sys) :
  exists r s', @dateRotation A s = (Return r, s')
               /\ @dateRotation B s = (Return r, s').
Proof.
  unfold dateRotation, bind, this, QFile_rename, world. cbn.
  destruct (files (env s) !! mFileDestination (self s)) as [text|]; cbn;
    [|by eauto].
  destruct (bool_decide _ || _); cbn; [by eauto|].
  destruct (mQuit (self s)); cbn; [by eauto|].
  unfold call. destruct (zipFileCustom _ _) as [st s']. by eauto.
Qed.

Lemma renameFileIfFull_sameDay s :
  currentDate (self s) = date (wallClock (env s) (ticks (env s))) ->
  renameFileIfFull s = ("", tick s).
Proof.
  intros Hd.
  unfold renameFileIfFull, returning, bind, sameDay, this, currentDateTime.
  cbn. by rewrite bool_decide_eq_true_2.
Qed.

Lemma renameRefused_false e oldName newName :
  renameRefused e oldName newName = false ->
  is_Some (files e !! oldName) /\ (oldName ∉ locked e)
  /\ files e !! newName = None.
Proof.
  unfold renameRefused, exists_on. intros Hr.
  apply orb_false_elim in Hr as [Hr H3]. apply orb_false_elim in Hr as [H1 H2].
  apply negb_false_iff, bool_decide_eq_true_1 in H1.
  apply bool_decide_eq_false_1 in H2, H3.
  split; [done|]. split; [done|].
  destruct (files e !! newName) eqn:E; [|done]. destruct H3. by eauto.
Qed.

(** The three outcomes of the rotation step. *)
Lemma renameFileIfFull_cases s :
  renameFileIfFull s = ("", tick s)
  \/ (renameRefused (env s) (mFileDestination (self s)) (rotatedName (self s))
        = false
      /\ (renameFileIfFull s = (rotatedName (self s), rotated s)
          \/ exists status,
               renameFileIfFull s
               = (status, zipped (rotatedName (self s)) (rotated s)))).
Proof.
  destruct (decide (currentDate (self s)
                    = date (wallClock (env s) (ticks (env s))))) as [Hd|Hd].
  { left. by apply renameFileIfFull_sameDay. }
  destruct (renameRefused (env s) (mFileDestination (self s))
              (rotatedName (self s))) eqn:Hr.
  { left. by apply renameFileIfFull_refused. }
  right. split; [done|].
  destruct (mQuit (self s)) eqn:Hq.
  - left. by apply renameFileIfFull_quit.
  - right. rewrite renameFileIfFull_zip, zipFileCustom_eq by done. by eauto.
Qed.

Lemma renameFileIfFull_sameSetting s : sameSetting s (renameFileIfFull s).2.
Proof.
  destruct (renameFileIfFull_cases s) as [->|[_ [->|[st ->]]]];
    by repeat split.
Qed.

Lemma renameFileIfFull_keeps s :
  let s' := (renameFileIfFull s).2 in
  console (env s') = console (env s)
  /\ mMessages (self s') = mMessages (self s)
  /\ mQuit (self s') = mQuit (self s)
  /\ wakes (env s') = wakes (env s).
Proof.
  destruct (renameFileIfFull_cases s) as [->|[_ [->|[st ->]]]];
    by repeat split.
Qed.

(** The rotation step writes no text: every text on disk after it was on
    disk before it. *)
Lemma renameFileIfFull_no_text s path text :
  files (env (renameFileIfFull s).2) !! path = Some text ->
  exists path0, files (env s) !! path0 = Some text.
Proof.
  assert (forall t,
    files (env s) !! mFileDestination (self s) = Some t ->
    <[rotatedName (self s) := t]>
      (delete (mFileDestination (self s)) (files (env s))) !! path = Some text ->
    exists path0, files (env s) !! path0 = Some text) as Hmoved.
  { intros t Ht.
    destruct (decide (rotatedName (self s) = path)) as [->|Hne].
    - rewrite lookup_insert_eq. intros [= <-]. by eauto.
    - rewrite lookup_insert_ne by done. intros Hl.
      apply lookup_delete_Some in Hl. destruct Hl as [_ Hl]. by eauto. }
  destruct (renameFileIfFull_cases s) as [->|[Hr [->|[st ->]]]];
    cbn [snd env tick rotated zipped files set_ticks set_files set_zipRuns].
  - intros Hl. by eauto.
  - apply renameRefused_false in Hr as ([t Ht] & _ & _).
    rewrite Ht. by apply Hmoved.
  - apply renameRefused_false in Hr as ([t Ht] & _ & _).
    rewrite Ht. by apply Hmoved.
Qed.

(** C3: the size-based statements of [renameFileIfFull] are never reached.
    The day-based block leaves the function on every path, in every state,
    so the function equals the one without the size-based statements. *)
Theorem renameFileIfFull_size_branch_unreachable :
  (forall s, exists r s', @dateRotation unit s = (Return r, s'))
  /\ (forall s, renameFileIfFull s = renameFileIfFull_byDate s).
Proof.
  split.
  - intros s. destruct (dateRotation_result unit unit s) as (r & s' & H & _).
    by eauto.
  - intros s.
    unfold renameFileIfFull, renameFileIfFull_byDate, returning, bind.
    destruct (sameDay s) as [[[]|r] s1]; [|done].
    destruct (dateRotation_result unit string s1) as (r & s' & H1 & H2).
    by rewrite H1, H2.
Qed.

(** ** Rotation: the claims *)

(** C2, as stated, fails where the rename is refused: the destination is
    missing on the first flush of a new day, nothing is renamed and the
    tracked date stays the old one. *)
Lemma renameFileIfFull_missing_destination_keeps_date :
  let s := Sample.nextDay ∅ ∅ ∅ OnlyFile [] false in
  currentDate (self s) <> date (wallClock (env s) (ticks (env s)))
  /\ files (env (renameFileIfFull s).2) = files (env s)
  /\ currentDate (self (renameFileIfFull s).2) = Sample.may1
  /\ date (wallClock (env s) (S (ticks (env s)))) = Sample.may2.
Proof. vm_compute. repeat split; done. Qed.

(** C2 (amended): on a flush, if the tracked date is the date of the clock,
    nothing is renamed, the result is empty and the tracked date stays.
    Otherwise, when the destination is [base.ext] with an extension of
    three characters and the rename is not refused, the destination is
    renamed to [base_yyyy_MM_dd.ext] with the tracked date, and the tracked
    date becomes the date of the clock. *)
Theorem renameFileIfFull_by_day s :
  (currentDate (self s) = date (wallClock (env s) (ticks (env s))) ->
   (renameFileIfFull s).1 = ""
   /\ files (env (renameFileIfFull s).2) = files (env s)
   /\ currentDate (self (renameFileIfFull s).2) = currentDate (self s))
  /\ (currentDate (self s) <> date (wallClock (env s) (ticks (env s))) ->
      forall base ext text,
        mFileDestination (self s) = base +:+ "." +:+ ext ->
        String.length ext = 3%nat ->
        files (env s) !! mFileDestination (self s) = Some text ->
        renameRefused (env s) (mFileDestination (self s))
          (base +:+ QDateFormat.underscores (currentDate (self s))
                +:+ "." +:+ ext) = false ->
        files (env (renameFileIfFull s).2)
        = <[base +:+ QDateFormat.underscores (currentDate (self s))
                 +:+ "." +:+ ext := text]>
            (delete (mFileDestination (self s)) (files (env s)))
        /\ currentDate (self (renameFileIfFull s).2)
           = date (wallClock (env s) (S (ticks (env s))))).
Proof.
  split.
  - intros Hd. by rewrite renameFileIfFull_sameDay.
  - intros Hd base ext text Hdest Hlen Htext Hr.
    assert (rotatedName (self s)
            = base +:+ QDateFormat.underscores (currentDate (self s))
                   +:+ "." +:+ ext) as Hname.
    { unfold rotatedName. rewrite Hdest.
      apply StringFacts.insert_before_suffix.
      rewrite StringFacts.length_app, Hlen. done. }
    rewrite <- Hname in *.
    destruct (mQuit (self s)) eqn:Hq.
    + rewrite renameFileIfFull_quit by done. cbn. by rewrite Htext.
    + rewrite renameFileIfFull_zip, zipFileCustom_eq by done. cbn.
      by rewrite Htext.
Qed.

Lemma renameFileIfFull_by_day_witness :
  (let s := mkSys (Sample.writer "logs/app.log" OnlyFile Debug Sample.Default
                     [] false Sample.may2)
                  (Sample.worldAt Sample.may2 {["logs/app.log" := "old"]} ∅ ∅) in
   (renameFileIfFull s).1 = ""
   /\ files (env (renameFileIfFull s).2) = files (env s)
   /\ currentDate (self (renameFileIfFull s).2) = currentDate (self s))
  /\ (let s := Sample.nextDay {["logs/app.log" := "old"]} ∅ ∅ OnlyFile []
                 false in
      files (env (renameFileIfFull s).2)
      = <["logs/app" +:+ "_2024_05_01" +:+ "." +:+ "log" := "old"]>
          (delete "logs/app.log" {["logs/app.log" := "old"]})
      /\ currentDate (self (renameFileIfFull s).2) = Sample.may2).
Proof.
  split; intros s.
  - apply (proj1 (renameFileIfFull_by_day s)). reflexivity.
  - apply (proj2 (renameFileIfFull_by_day s)); vm_compute; done.
Defined.

(** The position of the date is the size of the path less four, whatever
    the extension: a destination the constructor accepts with a longer
    extension is cut inside it. *)
Example renameFileIfFull_json :
  let s := mkSys (Sample.writer "logs/app.json" OnlyFile Debug Sample.Default
                    [] false Sample.may1)
                 (Sample.worldAt Sample.may2 {["logs/app.json" := "old"]} ∅ ∅) in
  files (env (renameFileIfFull s).2) !! "logs/app._2024_05_01json" = Some "old"
  /\ files (env (renameFileIfFull s).2) !! "logs/app_2024_05_01.json" = None.
Proof. vm_compute. done. Qed.

(** C8: when the day has changed and the rename is refused, the rotation
    step returns the empty result and leaves everything as a same-day call
    does: the writer (with its tracked date), the files, the console and
    the list of 7z runs are unchanged, only the clock has been read once.
    The flush then goes on with the batch alone: no second attempt, no
    "Previous log" line. *)
Theorem renameFileIfFull_rename_refused s :
  currentDate (self s) <> date (wallClock (env s) (ticks (env s))) ->
  renameRefused (env s) (mFileDestination (self s)) (rotatedName (self s))
    = true ->
  renameFileIfFull s = ("", tick s)
  /\ self (renameFileIfFull s).2 = self s
  /\ currentDate (self (renameFileIfFull s).2) = currentDate (self s)
  /\ files (env (renameFileIfFull s).2) = files (env s)
  /\ zipRuns (env (renameFileIfFull s).2) = zipRuns (env s)
  /\ console (env (renameFileIfFull s).2) = console (env s)
  /\ (forall messages,
        mMode (self s) <> OnlyConsole ->
        mFileDestination (self s) ∉ unwritable (env s) ->
        write messages s
        = (tt, appendTo (mFileDestination (self s)) (concatLines messages)
                 (if bool_decide (mMode (self s) = Full) then messages else [])
                 (tick s))).
Proof.
  intros Hd Hr. rewrite renameFileIfFull_refused by done.
  repeat split. intros messages Hm Hu.
  rewrite write_file; [|done|by rewrite renameFileIfFull_refused].
  by rewrite renameFileIfFull_refused.
Qed.

Lemma renameFileIfFull_rename_refused_witness :
  let s := Sample.nextDay {["logs/app.log" := "old"]} {["logs/app.log"]} ∅
             OnlyFile [] false in
  renameFileIfFull s = ("", tick s)
  /\ self (renameFileIfFull s).2 = self s
  /\ currentDate (self (renameFileIfFull s).2) = currentDate (self s)
  /\ files (env (renameFileIfFull s).2) = files (env s)
  /\ zipRuns (env (renameFileIfFull s).2) = zipRuns (env s)
  /\ console (env (renameFileIfFull s).2) = console (env s)
  /\ (forall messages,
        mMode (self s) <> OnlyConsole ->
        mFileDestination (self s) ∉ unwritable (env s) ->
        write messages s
        = (tt, appendTo (mFileDestination (self s)) (concatLines messages)
                 (if bool_decide (mMode (self s) = Full) then messages else [])
                 (tick s))).
Proof.
  intros s. apply (renameFileIfFull_rename_refused s); vm_compute; done.
Defined.



(** Without the quit flag the same rotation does start 7z. *)
Example renameFileIfFull_archives_otherwise :
  let s := Sample.nextDay {["logs/app.log" := "old"]} ∅ ∅ OnlyFile [] false in
  zipRuns (env (renameFileIfFull s).2)
  = [["7z"; "a"; "-t7z"; "-mx9"; "logs/app_2024_05_01.7z";
      "logs/app_2024_05_01.log"]].
Proof. vm_compute. done. Qed.

(** ** The file writer: the claims *)

Lemma write_keeps messages s :
  let s' := (write messages s).2 in
  sameSetting s s'
  /\ mMessages (self s') = mMessages (self s)
  /\ mQuit (self s') = mQuit (self s)
  /\ wakes (env s') = wakes (env s).
Proof.
  pose proof (renameFileIfFull_sameSetting s) as Hsame.
  destruct (renameFileIfFull_keeps s) as (Hc & Hq & Hquit & Hw).
  destruct (decide (mMode (self s) = OnlyConsole)) as [Hmode|Hmode].
  { rewrite write_console by done. by repeat split. }
  destruct (decide (mFileDestination (self s)
                    ∈ unwritable (env (renameFileIfFull s).2))) as [Hu|Hu].
  - rewrite write_unopened by done. by split.
  - rewrite write_file by done. unfold appendTo. cbn.
    split; [exact Hsame|done].
Qed.

(** C4: in a mode that writes the file, when the destination cannot be
    opened the flush does what the rotation step alone does, whatever the
    batch: nothing is printed on the console, no file gains any text (no
    line of the batch, no "Previous log" line), and the lines are not put
    back on the queue. The function has no result to report a failure
    with. *)
Theorem write_unopenable_drops_batch messages s :
  mMode (self s) <> OnlyConsole ->
  mFileDestination (self s) ∈ unwritable (env s) ->
  write messages s = (tt, (renameFileIfFull s).2)
  /\ write messages s = write [] s
  /\ console (env (write messages s).2) = console (env s)
  /\ mMessages (self (write messages s).2) = mMessages (self s)
  /\ (forall path text,
        files (env (write messages s).2) !! path = Some text ->
        exists path0, files (env s) !! path0 = Some text).
Proof.
  intros Hm Hu.
  destruct (renameFileIfFull_sameSetting s) as (_ & _ & _ & _ & _ & Hun & _).
  destruct (renameFileIfFull_keeps s) as (Hc & Hq & _).
  rewrite <- Hun in Hu. rewrite !write_unopened by done.
  repeat split; try done. apply renameFileIfFull_no_text.
Qed.

Lemma write_unopenable_drops_batch_witness :
  let s := Sample.nextDay {["logs/app.log" := "old"]} ∅ {["logs/app.log"]}
             Full [] false in
  let messages := ["first" +:+ LF; "second" +:+ LF] in
  write messages s = (tt, (renameFileIfFull s).2)
  /\ write messages s = write [] s
  /\ console (env (write messages s).2) = console (env s)
  /\ mMessages (self (write messages s).2) = mMessages (self s)
  /\ (forall path text,
        files (env (write messages s).2) !! path = Some text ->
        exists path0, files (env s) !! path0 = Some text).
Proof.
  intros s messages.
  apply (write_unopenable_drops_batch messages s).
  - vm_compute. done.
  - cbn. set_solver.
Defined.

(** ** Shutdown *)

Lemma closeDestination_eq s :
  closeDestination s
  = let s1 :=
      if bool_decide (mMessages (self s) = []) then s
      else (write (mMessages (self s))
              (mkSys (set_mMessages [] (self s)) (env s))).2 in
    let now := wallClock (env s1) (ticks (env s1)) in
    let s2 := (write [closedLine (textDate (env s1) now)] (tick s1)).2 in
    (tt, mkSys (set_mQuit true (self s2)) (set_wakes (S (wakes (env s2))) (env s2))).
Proof.
  unfold closeDestination, returning. run.
  destruct (bool_decide (mMessages (self s) = [])); run; unfold wakeAll;
    by destruct (write _ _) as [[] ?].
Qed.

Lemma noRotationDue_idle today s :
  (forall k, date (wallClock (env s) k) = today) ->
  noRotationDue today s ->
  renameFileIfFull s = ("", tick s).
Proof.
  intros Hclock Hidle.
  destruct (decide (currentDate (self s) = today)) as [Hd|Hd].
  { apply renameFileIfFull_sameDay. by rewrite Hclock. }
  destruct Hidle as [?|Hidle]; [done|].
  apply renameFileIfFull_refused; [by rewrite Hclock|].
  unfold renameRefused. rewrite <- orb_assoc, Hidle. apply orb_true_r.
Qed.

Lemma noRotationDue_after_rotation today s :
  (forall k, date (wallClock (env s) k) = today) ->
  currentDate (self s) = today
  \/ is_Some (files (env s) !! mFileDestination (self s)) ->
  noRotationDue today (renameFileIfFull s).2.
Proof.
  intros Hclock Hstart.
  destruct (decide (currentDate (self s) = today)) as [Hd|Hd].
  { rewrite renameFileIfFull_sameDay by (by rewrite Hclock). by left. }
  destruct Hstart as [?|Hfile]; [done|].
  destruct (renameRefused (env s) (mFileDestination (self s))
              (rotatedName (self s))) eqn:Hr.
  - rewrite renameFileIfFull_refused by (by rewrite ?Hclock). right. cbn.
    unfold renameRefused, exists_on in Hr.
    rewrite (bool_decide_eq_true_2 (is_Some _)) in Hr by done.
    by rewrite <- orb_assoc in Hr.
  - left. destruct (mQuit (self s)) eqn:Hq.
    + rewrite renameFileIfFull_quit by (by rewrite ?Hclock). cbn. apply Hclock.
    + rewrite renameFileIfFull_zip, zipFileCustom_eq by (by rewrite ?Hclock).
      cbn. apply Hclock.
Qed.

Lemma noRotationDue_appendTo today path text mirror s :
  path = mFileDestination (self s) ->
  noRotationDue today s -> noRotationDue today (tick (appendTo path text mirror s)).
Proof.
  intros -> [Hd|Hidle]; [by left|right]. cbn.
  apply orb_true_iff in Hidle as [Hl|He]; [by rewrite Hl|].
  apply orb_true_iff. right. unfold exists_on in *.
  apply bool_decide_eq_true_1 in He. apply bool_decide_eq_true_2.
  destruct (decide (mFileDestination (self s) = rotatedName (self s)))
    as [<-|Hne].
  - rewrite lookup_insert_eq. by eauto.
  - by rewrite lookup_insert_ne.
Qed.

Lemma write_content messages s :
  mMode (self s) <> OnlyConsole ->
  mFileDestination (self s) ∉ unwritable (env s) ->
  exists pre,
    files (env (write messages s).2) !! mFileDestination (self s)
    = Some (pre +:+ concatLines messages).
Proof.
  intros Hm Hu.
  destruct (renameFileIfFull_sameSetting s) as (_ & _ & _ & _ & _ & Hun & _).
  rewrite write_file by (by rewrite ?Hun). unfold appendTo. cbn.
  rewrite lookup_insert_eq, <- StringFacts.app_assoc. by eauto.
Qed.

Lemma write_then_line messages s today :
  mMode (self s) <> OnlyConsole ->
  mFileDestination (self s) ∉ unwritable (env s) ->
  (forall k, date (wallClock (env s) k) = today) ->
  currentDate (self s) = today
  \/ is_Some (files (env s) !! mFileDestination (self s)) ->
  forall line, exists pre,
    files (env (write [line] (tick (write messages s).2)).2)
      !! mFileDestination (self s)
    = Some (pre +:+ concatLines messages +:+ line).
Proof.
  intros Hmode Hu Hclock Hstart line.
  destruct (renameFileIfFull_sameSetting s)
    as (Hd1 & Hm1 & _ & _ & _ & Hun1 & Hc1 & _).
  assert (noRotationDue today (renameFileIfFull s).2) as Hidle
    by (by apply noRotationDue_after_rotation).
  rewrite (write_file messages s) by (by rewrite ?Hun1).
  cbn [snd] in *.
  set (r := (renameFileIfFull s).2) in *.
  set (text := previousLogLine (renameFileIfFull s).1 +:+ concatLines messages).
  set (mirror := if bool_decide (mMode (self s) = Full) then messages else []).
  rewrite <- Hd1 in *.
  apply (noRotationDue_appendTo today (mFileDestination (self r)) text
           mirror) in Hidle; [|done].
  set (s2 := tick (appendTo (mFileDestination (self r)) text mirror r)) in *.
  assert (renameFileIfFull s2 = ("", tick s2)) as Hrot.
  { apply (noRotationDue_idle today); [|done]. cbn. by rewrite Hc1. }
  rewrite (write_file [line] s2);
    [|cbn; by rewrite Hm1|rewrite Hrot; cbn; by rewrite Hun1].
  rewrite Hrot. cbn. rewrite !lookup_insert_eq. cbn.
  exists (default "" (files (env r) !! mFileDestination (self r))
            +:+ previousLogLine (renameFileIfFull s).1).
  f_equal. unfold text. change (previousLogLine "") with "".
  by rewrite StringFacts.app_nil_l, StringFacts.app_nil_r,
    !StringFacts.app_assoc.
Qed.

(** The writer after [closeDestination]: queue empty, quit flag set, the
    worker woken once. *)
Lemma closeDestination_stops s :
  let s' := (closeDestination s).2 in
  mMessages (self s') = [] /\ mQuit (self s') = true
  /\ wakes (env s') = S (wakes (env s)).
Proof.
  rewrite closeDestination_eq. cbn zeta. cbn [snd self env].
  set (q := mMessages (self s)).
  set (s0 := mkSys (set_mMessages [] (self s)) (env s)).
  cbn [mMessages mQuit set_mQuit wakes set_wakes].
  destruct (bool_decide_reflect (q = [])) as [Hq|Hq].
  - destruct (write_keeps [closedLine (textDate (env s)
                (wallClock (env s) (ticks (env s))))] (tick s))
      as (_ & Hm & _ & Hw).
    cbn in Hm, Hw. by rewrite Hm, Hw.
  - destruct (write_keeps q s0) as (Hs & Hm0 & _ & Hw0).
    set (s1 := (write q s0).2) in *.
    destruct (write_keeps [closedLine (textDate (env s1)
                (wallClock (env s1) (ticks (env s1))))] (tick s1))
      as (_ & Hm & _ & Hw).
    cbn in Hm, Hw, Hm0, Hw0. by rewrite Hm, Hm0, Hw, Hw0.
Qed.

(** C5, as stated, fails where the destination cannot be opened: the
    queue is emptied and the writer stopped, but neither the queued line
    nor the "Closed" line reaches the file or the console. *)
Lemma closeDestination_unopenable_loses_lines :
  let s := mkSys (Sample.writer "logs/app.log" Full Debug Sample.Default
                    ["first" +:+ LF] false Sample.may2)
                 (Sample.worldAt Sample.may2 {["logs/app.log" := "old"]} ∅
                    {["logs/app.log"]}) in
  let s' := (closeDestination s).2 in
  mMessages (self s') = [] /\ mQuit (self s') = true
  /\ map_to_list (files (env s')) = [("logs/app.log", "old")]
  /\ console (env s') = [].
Proof. repeat split; vm_compute; reflexivity. Qed.

(** C5 (amended): [closeDestination] hands the queued lines, in their
    order, to [write], then the line "Closed <time>", and then sets the
    quit flag and wakes the worker; the queue is left empty. In console
    mode the console receives the queued lines and then the "Closed" line.
    In the other modes, when the destination can be opened and, on the day
    of the call, either no rotation is due or the destination file
    exists, the destination ends with the queued lines in their order
    followed by the "Closed" line. *)
Theorem closeDestination_drains s :
  let s' := (closeDestination s).2 in
  (mMessages (self s') = [] /\ mQuit (self s') = true
   /\ wakes (env s') = S (wakes (env s)))
  /\ (mMode (self s) = OnlyConsole ->
      console (env s')
      = (console (env s) ++ mMessages (self s)
         ++ [closedLine (textDate (env s) (wallClock (env s) (ticks (env s))))])%list)
  /\ (mMode (self s) <> OnlyConsole ->
      mFileDestination (self s) ∉ unwritable (env s) ->
      forall today,
        (forall k, date (wallClock (env s) k) = today) ->
        currentDate (self s) = today
        \/ is_Some (files (env s) !! mFileDestination (self s)) ->
        exists pre t,
          files (env s') !! mFileDestination (self s)
          = Some (pre +:+ concatLines (mMessages (self s)) +:+ closedLine t)).
Proof.
  cbn zeta. split; [apply closeDestination_stops|].
  rewrite closeDestination_eq. cbn zeta. cbn [snd self env].
  set (q := mMessages (self s)).
  set (s0 := mkSys (set_mMessages [] (self s)) (env s)).
  split.
  - intros Hmode.
    destruct (bool_decide_reflect (q = [])) as [Hq|Hq].
    + rewrite write_console by done. cbn. by rewrite Hq.
    + rewrite (write_console q s0) by done. cbn [snd self env].
      rewrite write_console by done. cbn. by rewrite <- app_assoc.
  - intros Hmode Hu today Hclock Hstart. cbn [files set_wakes].
    destruct (bool_decide_reflect (q = [])) as [Hq|Hq].
    + destruct (write_content [closedLine (textDate (env s)
                  (wallClock (env s) (ticks (env s))))] (tick s))
        as [pre Hpre]; [done..|].
      cbn in Hpre. exists pre, (textDate (env s) (wallClock (env s) (ticks (env s)))).
      rewrite Hpre, Hq. cbn. by rewrite StringFacts.app_nil_r.
    + destruct (write_then_line q s0 today Hmode Hu Hclock Hstart
                  (closedLine (textDate (env (write q s0).2)
                     (wallClock (env (write q s0).2)
                        (ticks (env (write q s0).2)))))) as [pre Hpre].
      by eauto.
Qed.

Lemma closeDestination_drains_witness :
  let s := Sample.nextDay {["logs/app.log" := "old"]} ∅ ∅ OnlyFile
             ["first" +:+ LF; "second" +:+ LF] false in
  exists pre t,
    files (env (closeDestination s).2) !! "logs/app.log"
    = Some (pre +:+ concatLines ["first" +:+ LF; "second" +:+ LF]
                +:+ closedLine t).
Proof.
  intros s.
  apply (proj2 (proj2 (closeDestination_drains s))) with (today := Sample.may2).
  - vm_compute. done.
  - cbn. set_solver.
  - intros k. reflexivity.
  - right. vm_compute. by eauto.
Defined.

(** Why the existence of the destination matters: met missing on a new
    day, it is created by the flush of the queue and then renamed by the
    flush of the "Closed" line, the tracked date being still the old one. *)
Example closeDestination_rotates_fresh_file :
  let s := Sample.nextDay ∅ ∅ ∅ OnlyFile ["first" +:+ LF] false in
  files (env (closeDestination s).2) !! "logs/app_2024_05_01.log"
  = Some ("first" +:+ LF)
  /\ QString.contains "first"
       (default "" (files (env (closeDestination s).2) !! "logs/app.log"))
     = false.
Proof. vm_compute. done. Qed.

(** ** The formatter *)

Section Formatter.
Context `{Enumerators}.

Lemma testFlag_refl a : testFlag a a = true.
Proof.
  unfold testFlag. rewrite Z.land_diag, !Z.eqb_refl. apply orb_true_r.
Qed.

Lemma testFlag_trans a b c :
  testFlag a b = true -> testFlag b c = true -> testFlag a c = true.
Proof.
  unfold testFlag. rewrite !andb_true_iff, !orb_true_iff, !negb_true_iff.
  rewrite !Z.eqb_eq, !Z.eqb_neq. intros [Hab Hb] [Hbc Hc]. split.
  - rewrite <- Hbc at 1. by rewrite Z.land_assoc, Hab.
  - destruct Hc as [Hc| ->]; [by left|].
    destruct Hb as [Hb| ->]; [by left|]. by right.
Qed.

Lemma enqueue_disabled date threadId module level function fileName line
    message s :
  mMode (self s) = Disabled ->
  enqueue date threadId module level function fileName line message s
  = (tt, s).
Proof.
  intros Hm. unfold enqueue, returning. run.
  by rewrite bool_decide_eq_true_2.
Qed.

Lemma enqueue_queue date threadId module level function fileName line
    message s :
  mMode (self s) <> Disabled ->
  mMessages
    (self (enqueue date threadId module level function fileName line
             message s).2)
  = (mMessages (self s)
     ++ [enqueue_text (mMessageOptions (self s)) (mLevel (self s)) date
           threadId module level function fileName line message +:+ LF])%list.
Proof.
  intros Hm. unfold enqueue, returning. run.
  rewrite bool_decide_eq_false_2 by done. run.
  destruct (writeMSec (self s) <? _); run; [|done].
  destruct (mIsStop (self s)); unfold wakeAll; run; done.
Qed.

Lemma fileLine_shape options level function fileName line :
  enqueue_fileLine options level function fileName line = ""
  \/ exists x,
       enqueue_fileLine options level function fileName line
       = String "{" x +:+ "}".
Proof.
  unfold enqueue_fileLine.
  destruct (_ && _ && _ && _ && _).
  { right. exists (fileName +:+ ":" +:+ QString.number line).
    change (QString.arg "{%1:%2}" [fileName; QString.number line])
      with ("{" +:+ fileName +:+ ":" +:+ QString.number line +:+ "}").
    rewrite ?StringFacts.app_cons, ?StringFacts.app_nil_l,
      ?StringFacts.app_assoc. reflexivity. }
  destruct (_ && _ && _ && _ && _); [|by left].
  right. exists (fileName +:+ "}{" +:+ function).
  change (QString.arg "{%1}{%2}" [fileName; function])
    with ("{" +:+ fileName +:+ "}{" +:+ function +:+ "}").
  rewrite ?StringFacts.app_cons, ?StringFacts.app_nil_l,
    ?StringFacts.app_assoc. reflexivity.
Qed.

Lemma fileLine_no_space options level function fileName line :
  QString.startsWith " "
    (enqueue_fileLine options level function fileName line) = false.
Proof.
  destruct (fileLine_shape options level function fileName line)
    as [->|[x ->]]; done.
Qed.

(** The appends of [enqueue] build the composition of the
    specification. *)
Lemma enqueue_compose_spec options date threadId module level segment
    message :
  QString.startsWith " " segment = false ->
  enqueue_compose options date threadId module level segment message
  = spec_compose options date threadId module level segment message.
Proof.
  intros Hseg. unfold enqueue_compose, spec_compose, spec_fields.
  rewrite Hseg.
  change (QString.arg "%1" [message]) with (message +:+ "").
  change (QString.arg " %1" [message]) with (" " +:+ message +:+ "").
  change (QString.arg "[%1]" [levelToText level])
    with ("[" +:+ levelToText level +:+ "]").
  change (QString.arg "[%1]" [module]) with ("[" +:+ module +:+ "]").
  change (QString.arg "[%1]" [QDateFormat.stamp date])
    with ("[" +:+ QDateFormat.stamp date +:+ "]").
  change (QString.arg "[%1]" [threadId]) with ("[" +:+ threadId +:+ "]").
  destruct (testFlag options LogMessageDisplay_LogLevel);
    destruct (testFlag options LogMessageDisplay_ModuleName);
    destruct (testFlag options LogMessageDisplay_DateTime);
    destruct (testFlag options LogMessageDisplay_ThreadId);
    destruct (QString.isEmpty segment);
    destruct (testFlag options LogMessageDisplay_Message);
    cbn [negb app concatLines foldr];
    rewrite ?StringFacts.app_nil_l, ?StringFacts.app_nil_r,
      ?StringFacts.app_assoc;
    reflexivity.
Qed.

Lemma spec_compose_all options date threadId module level segment message :
  testFlag options LogMessageDisplay_LogLevel = true ->
  testFlag options LogMessageDisplay_ModuleName = true ->
  testFlag options LogMessageDisplay_DateTime = true ->
  testFlag options LogMessageDisplay_ThreadId = true ->
  testFlag options LogMessageDisplay_Message = true ->
  segment = "" \/ (exists x, segment = String "{" x +:+ "}") ->
  spec_compose options date threadId module level segment message
  = "[" +:+ levelToText level +:+ "][" +:+ module +:+ "]["
    +:+ QDateFormat.stamp date +:+ "][" +:+ threadId +:+ "]" +:+ segment
    +:+ " " +:+ message.
Proof.
  intros H1 H2 H3 H4 H5 Hseg. unfold spec_compose, spec_fields.
  rewrite H1, H2, H3, H4, H5. cbn [app concatLines foldr].
  set (front := "[" +:+ levelToText level +:+ "][" +:+ module +:+ "]["
    +:+ QDateFormat.stamp date +:+ "][" +:+ threadId).
  destruct Hseg as [->|[x ->]].
  - change (QString.isEmpty "") with true. cbn [app concatLines foldr].
    assert (("[" +:+ levelToText level +:+ "]") +:+
             ("[" +:+ module +:+ "]") +:+
             ("[" +:+ QDateFormat.stamp date +:+ "]") +:+
             ("[" +:+ threadId +:+ "]") +:+ "" = front +:+ "]") as ->.
    { unfold front.
      rewrite ?StringFacts.app_nil_r, ?StringFacts.app_assoc. reflexivity. }
    rewrite (StringFacts.endsWith_other " " "]") by done.
    assert (QString.isEmpty (front +:+ "]") = false) as -> by reflexivity.
    cbn [orb]. unfold front. rewrite ?StringFacts.app_assoc. reflexivity.
  - change (QString.isEmpty (String "{" x +:+ "}")) with false.
    cbn [app concatLines foldr].
    assert (("[" +:+ levelToText level +:+ "]") +:+
             ("[" +:+ module +:+ "]") +:+
             ("[" +:+ QDateFormat.stamp date +:+ "]") +:+
             ("[" +:+ threadId +:+ "]") +:+ (String "{" x +:+ "}") +:+ ""
            = (front +:+ "]" +:+ String "{" x) +:+ "}") as ->.
    { unfold front.
      rewrite ?StringFacts.app_nil_r, ?StringFacts.app_assoc. reflexivity. }
    rewrite (StringFacts.endsWith_other " " "}") by done.
    assert (QString.isEmpty ((front +:+ "]" +:+ String "{" x) +:+ "}")
            = false) as -> by reflexivity.
    cbn [orb]. unfold front. rewrite ?StringFacts.app_assoc. reflexivity.
Qed.

Lemma enqueue_text_spec options mLevel date threadId module level function
    fileName line message :
  DefaultShowsFields ->
  enqueue_text options mLevel date threadId module level function fileName
    line message
  = spec_compose options date threadId module level
      (enqueue_fileLine options mLevel function fileName line) message.
Proof.
  intros (H1 & H2 & H3 & H4 & H5). unfold enqueue_text.
  destruct (testFlag options LogMessageDisplay_Default) eqn:Hdef.
  - rewrite spec_compose_all
      by eauto using testFlag_trans, fileLine_shape.
    change (QString.arg "[%1][%2][%3][%4]%5 %6"
              [levelToText level; module; QDateFormat.stamp date; threadId;
               enqueue_fileLine options mLevel function fileName line;
               message])
      with ("[" +:+ levelToText level +:+ "][" +:+ module +:+ "]["
            +:+ QDateFormat.stamp date +:+ "][" +:+ threadId +:+ "]"
            +:+ enqueue_fileLine options mLevel function fileName line
            +:+ " " +:+ message +:+ "").
    by rewrite StringFacts.app_nil_r.
  - apply enqueue_compose_spec, fileLine_no_space.
Qed.

End Formatter.

(** C1, as stated, fails when "severity" is read as the level of the
    message: the test is on the level the writer is configured with. A
    Debug message sent to a writer configured at Info has no file segment,
    and an Error message sent to a writer configured at Trace has one. *)
Lemma enqueue_segment_ignores_message_level :
  let options := Sample.Default in
  let at_level l :=
    mkSys (Sample.writer "logs/app.log" OnlyFile l options [] false Sample.may2)
          (Sample.worldAt Sample.may2 ∅ ∅ ∅) in
  let queue level s :=
    mMessages (self (@enqueue Sample.enumerators (Sample.noon Sample.may2)
                       "0x1" "Net" level "main" "a.cpp" 10 "hello" s).2) in
  testFlag options (@LogMessageDisplay_File Sample.enumerators) = true
  /\ testFlag options (@LogMessageDisplay_Line Sample.enumerators) = true
  /\ @LogLevel_le Sample.enumerators Debug Debug = true
  /\ queue Debug (at_level Info)
     = ["[Debug][Net][2024-05-02 12:00:00:000][0x1] hello" +:+ LF]
  /\ QString.contains "{a.cpp:10}"
       ("[Debug][Net][2024-05-02 12:00:00:000][0x1] hello" +:+ LF) = false
  /\ @LogLevel_le Sample.enumerators Error Debug = false
  /\ queue Error (at_level Trace)
     = ["[Error][Net][2024-05-02 12:00:00:000][0x1]{a.cpp:10} hello" +:+ LF].
Proof. repeat split; vm_compute; reflexivity. Qed.

(** C1 (amended): in a mode other than Disabled and with [testFlag(Default)]
    holding, the queued line is
    [Level][Module][Timestamp][ThreadId]segment Message and a line feed.
    The segment is {File:Line} exactly when the File and Line flags are
    set, the file name is not empty, the line is positive and the level
    the writer is configured with is at most Debug; otherwise it is
    {File}{Function} when the File and Function flags are set, file name
    and function are not empty and the configured level is at most Debug;
    otherwise it is empty. With the file name a.cpp, line 10, the File and
    Line flags and a writer configured at Debug or below, the line
    contains {a.cpp:10}. *)
Theorem enqueue_default_layout `{Enumerators} date threadId module level
    function fileName line message s :
  mMode (self s) <> Disabled ->
  testFlag (mMessageOptions (self s)) LogMessageDisplay_Default = true ->
  let options := mMessageOptions (self s) in
  let withLine :=
    testFlag options LogMessageDisplay_File
    && testFlag options LogMessageDisplay_Line
    && negb (QString.isEmpty fileName) && (0 <? line)
    && LogLevel_le (mLevel (self s)) Debug in
  let withFunction :=
    testFlag options LogMessageDisplay_File
    && testFlag options LogMessageDisplay_Function
    && negb (QString.isEmpty fileName) && negb (QString.isEmpty function)
    && LogLevel_le (mLevel (self s)) Debug in
  let segment :=
    if withLine
    then "{" +:+ fileName +:+ ":" +:+ QString.number line +:+ "}"
    else if withFunction then "{" +:+ fileName +:+ "}{" +:+ function +:+ "}"
    else "" in
  let queued :=
    "[" +:+ levelToText level +:+ "][" +:+ module +:+ "]["
    +:+ QDateFormat.stamp date +:+ "][" +:+ threadId +:+ "]" +:+ segment
    +:+ " " +:+ message +:+ LF in
  mMessages
    (self (enqueue date threadId module level function fileName line message
             s).2)
  = (mMessages (self s) ++ [queued])%list
  /\ (fileName = "a.cpp" -> line = 10 ->
      testFlag options LogMessageDisplay_File = true ->
      testFlag options LogMessageDisplay_Line = true ->
      LogLevel_le (mLevel (self s)) Debug = true ->
      QString.contains "{a.cpp:10}" queued = true).
Proof.
  intros Hmode Hdef options withLine withFunction segment queued.
  assert (enqueue_fileLine options (mLevel (self s)) function fileName line
          = segment) as Hseg.
  { unfold enqueue_fileLine. fold withLine withFunction. unfold segment.
    destruct withLine; [reflexivity|]. destruct withFunction; reflexivity. }
  split.
  - rewrite enqueue_queue by done. do 2 f_equal.
    unfold enqueue_text. rewrite Hdef. fold options. rewrite Hseg.
    change (QString.arg "[%1][%2][%3][%4]%5 %6"
              [levelToText level; module; QDateFormat.stamp date; threadId;
               segment; message])
      with ("[" +:+ levelToText level +:+ "][" +:+ module +:+ "]["
            +:+ QDateFormat.stamp date +:+ "][" +:+ threadId +:+ "]"
            +:+ segment +:+ " " +:+ message +:+ "").
    unfold queued.
    by rewrite StringFacts.app_nil_r, !StringFacts.app_assoc.
  - intros -> -> HF HL Hlevel. subst queued segment withLine. cbv zeta.
    rewrite HF, HL, Hlevel.
    change (true && true && negb (QString.isEmpty "a.cpp") && (0 <? 10) && true)
      with true. cbn iota.
    change ("{" +:+ "a.cpp" +:+ ":" +:+ QString.number 10 +:+ "}")
      with ("{a.cpp:10}" +:+ "").
    rewrite StringFacts.app_nil_r.
    do 9 apply StringFacts.contains_skip. apply StringFacts.contains_prefix.
Qed.

Lemma enqueue_default_layout_witness :
  let s := mkSys (Sample.writer "logs/app.log" OnlyFile Debug Sample.Default
                    [] false Sample.may2)
                 (Sample.worldAt Sample.may2 ∅ ∅ ∅) in
  mMessages (self (@enqueue Sample.enumerators (Sample.noon Sample.may2)
                     "0x1" "Net" Debug "main" "a.cpp" 10 "hello" s).2)
  = ([] ++ ["[" +:+ "Debug" +:+ "][" +:+ "Net" +:+ "]["
            +:+ "2024-05-02 12:00:00:000" +:+ "][" +:+ "0x1" +:+ "]"
            +:+ "{a.cpp:10}" +:+ " " +:+ "hello" +:+ LF])%list
  /\ QString.contains "{a.cpp:10}"
       ("[" +:+ "Debug" +:+ "][" +:+ "Net" +:+ "]["
        +:+ "2024-05-02 12:00:00:000" +:+ "][" +:+ "0x1" +:+ "]"
        +:+ "{a.cpp:10}" +:+ " " +:+ "hello" +:+ LF) = true.
Proof.
  intros s.
  destruct (@enqueue_default_layout Sample.enumerators
              (Sample.noon Sample.may2) "0x1" "Net" Debug "main" "a.cpp" 10
              "hello" s) as [Hq Hc].
  - vm_compute. done.
  - vm_compute. reflexivity.
  - split.
    + exact Hq.
    + apply Hc; vm_compute; reflexivity.
Defined.

(** C6: for a flag set other than the Default composite, the queued line
    is the composition of the specification: the enabled fields in the
    order Level, Module, Timestamp, ThreadId, file/function segment, each
    in its brackets, then the message after one space unless nothing or a
    space precedes it (and the line feed). The segment is {file:line} when
    the File and Line flags are set, the file name is not empty, the line
    is positive and the writer's level is Debug or lower; else
    {file}{function} when the File and Function flags are set, both names
    are not empty and the writer's level is Debug or lower; else there is
    none. With exactly the flags LogLevel, ModuleName and Message and the
    inputs Error, "Net", "timeout" the line is [Error][Net] timeout. The
    values of the flags come from QLoggerLevel.h; what is used of them is
    that the Default composite contains the five fields of the fixed
    layout. *)
Theorem enqueue_custom_composition `{Enumerators} date threadId module level
    function fileName line message s :
  DefaultShowsFields ->
  mMode (self s) <> Disabled ->
  mMessageOptions (self s) <> LogMessageDisplay_Default ->
  let options := mMessageOptions (self s) in
  let withLine :=
    testFlag options LogMessageDisplay_File
    && testFlag options LogMessageDisplay_Line
    && negb (QString.isEmpty fileName) && (0 <? line)
    && LogLevel_le (mLevel (self s)) Debug in
  let withFunction :=
    testFlag options LogMessageDisplay_File
    && testFlag options LogMessageDisplay_Function
    && negb (QString.isEmpty fileName) && negb (QString.isEmpty function)
    && LogLevel_le (mLevel (self s)) Debug in
  let segment :=
    if withLine
    then "{" +:+ fileName +:+ ":" +:+ QString.number line +:+ "}"
    else if withFunction then "{" +:+ fileName +:+ "}{" +:+ function +:+ "}"
    else "" in
  let queue' :=
    mMessages
      (self (enqueue date threadId module level function fileName line
               message s).2) in
  queue'
  = (mMessages (self s)
     ++ [spec_compose options date threadId module level segment message
         +:+ LF])%list
  /\ (testFlag options LogMessageDisplay_LogLevel = true ->
      testFlag options LogMessageDisplay_ModuleName = true ->
      testFlag options LogMessageDisplay_Message = true ->
      testFlag options LogMessageDisplay_DateTime = false ->
      testFlag options LogMessageDisplay_ThreadId = false ->
      testFlag options LogMessageDisplay_File = false ->
      level = Error -> module = "Net" -> message = "timeout" ->
      queue' = (mMessages (self s) ++ ["[Error][Net] timeout" +:+ LF])%list).
Proof.
  intros Hfields Hmode _ options withLine withFunction segment queue'.
  assert (enqueue_fileLine options (mLevel (self s)) function fileName line
          = segment) as Hseg.
  { unfold enqueue_fileLine. fold withLine withFunction. unfold segment.
    destruct withLine; [reflexivity|]. destruct withFunction; reflexivity. }
  assert (queue'
          = (mMessages (self s)
             ++ [spec_compose options date threadId module level segment
                   message +:+ LF])%list) as Hqueue.
  { unfold queue'. rewrite enqueue_queue by done.
    rewrite enqueue_text_spec by done. fold options. by rewrite Hseg. }
  split; [exact Hqueue|].
  intros HL HM HMsg HD HT HF -> -> ->. rewrite Hqueue. do 3 f_equal.
  assert (segment = "") as ->.
  { unfold segment, withLine, withFunction. by rewrite HF. }
  unfold spec_compose, spec_fields. rewrite HL, HM, HMsg, HD, HT.
  reflexivity.
Qed.

Lemma enqueue_custom_composition_witness :
  let s := mkSys (Sample.writer "logs/app.log" OnlyFile Debug
                    (1 + 2 + 32 + 64 + 128) [] false Sample.may2)
                 (Sample.worldAt Sample.may2 ∅ ∅ ∅) in
  let s' := mkSys (Sample.writer "logs/app.log" OnlyFile Info
                     (1 + 32 + 16 + 128) [] false Sample.may2)
                  (Sample.worldAt Sample.may2 ∅ ∅ ∅) in
  let s'' := mkSys (Sample.writer "logs/app.log" OnlyFile Debug (1 + 2 + 128)
                      [] false Sample.may2)
                   (Sample.worldAt Sample.may2 ∅ ∅ ∅) in
  mMessages (self (@enqueue Sample.enumerators (Sample.noon Sample.may2)
                     "0x1" "Net" Error "main" "a.cpp" 10 "timeout" s).2)
  = ["[Error][Net]{a.cpp:10} timeout" +:+ LF]
  /\ mMessages (self (@enqueue Sample.enumerators (Sample.noon Sample.may2)
                        "0x1" "Net" Error "main" "a.cpp" 10 "timeout" s').2)
     = ["[Error] timeout" +:+ LF]
  /\ mMessages (self (@enqueue Sample.enumerators (Sample.noon Sample.may2)
                        "0x1" "Net" Error "main" "a.cpp" 10 "timeout" s'').2)
     = ([] ++ ["[Error][Net] timeout" +:+ LF])%list.
Proof.
  intros s s' s''. split; [|split].
  - refine (eq_trans
              (proj1 (@enqueue_custom_composition Sample.enumerators
                        (Sample.noon Sample.may2) "0x1" "Net" Error "main"
                        "a.cpp" 10 "timeout" s _ _ _)) _).
    + repeat split.
    + vm_compute. done.
    + vm_compute. done.
    + vm_compute. reflexivity.
  - refine (eq_trans
              (proj1 (@enqueue_custom_composition Sample.enumerators
                        (Sample.noon Sample.may2) "0x1" "Net" Error "main"
                        "a.cpp" 10 "timeout" s' _ _ _)) _).
    + repeat split.
    + vm_compute. done.
    + vm_compute. done.
    + vm_compute. reflexivity.
  - apply (@enqueue_custom_composition Sample.enumerators
             (Sample.noon Sample.may2) "0x1" "Net" Error "main" "a.cpp" 10
             "timeout" s''); try reflexivity.
    + repeat split.
    + vm_compute. done.
    + vm_compute. done.
Defined.

(** With the File and Function flags set and no line number the segment
    names the function; a writer whose level is above Debug leaves the
    segment out whatever the flags. *)
Example enqueue_custom_segments :
  let queued level options function fileName line :=
    mMessages
      (self (@enqueue Sample.enumerators (Sample.noon Sample.may2) "0x1"
               "Net" Error function fileName line "timeout"
               (mkSys (Sample.writer "logs/app.log" OnlyFile level options
                         [] false Sample.may2)
                      (Sample.worldAt Sample.may2 ∅ ∅ ∅))).2) in
  queued Debug (1 + 16 + 32 + 128) "main" "a.cpp" 0
  = ["[Error]{a.cpp}{main} timeout" +:+ LF]
  /\ queued Trace (4 + 8 + 32 + 64) "main" "a.cpp" 10
     = ["[2024-05-02 12:00:00:000][0x1]{a.cpp:10}" +:+ LF]
  /\ queued Warning (1 + 16 + 32 + 64 + 128) "main" "a.cpp" 10
     = ["[Error] timeout" +:+ LF]
  /\ queued Debug (32 + 64 + 128) "main" "" 10 = ["timeout" +:+ LF].
Proof. repeat split; vm_compute; reflexivity. Qed.

Lemma run_turn_queue s : mMessages (self (run_turn s).2) = [].
Proof.
  unfold run_turn, returning. run.
  destruct (write_keeps (mMessages (self s))
              (mkSys (set_mMessages [] (self s)) (env s)))
    as (_ & Hm & _).
  cbn in Hm. cbn. exact Hm.
Qed.

(** C10: in a mode other than Disabled every call of [enqueue] appends
    exactly one element to the queue, and the element ends with a line
    feed; when the flag set enables no field the element is the line feed
    alone. Hence, from an empty queue on, every element of the queue ends
    with a line feed, whatever calls the writer receives. *)
Theorem enqueue_queues_one_line `{Enumerators} :
  (forall date threadId module level function fileName line message s,
     mMode (self s) <> Disabled ->
     let options := mMessageOptions (self s) in
     let queue' :=
       mMessages
         (self (enqueue date threadId module level function fileName line
                  message s).2) in
     (exists text,
        queue' = (mMessages (self s) ++ [text])%list
        /\ newlineTerminated text)
     /\ length queue' = S (length (mMessages (self s)))
     /\ (testFlag options LogMessageDisplay_Default = false ->
         testFlag options LogMessageDisplay_LogLevel = false ->
         testFlag options LogMessageDisplay_ModuleName = false ->
         testFlag options LogMessageDisplay_DateTime = false ->
         testFlag options LogMessageDisplay_ThreadId = false ->
         testFlag options LogMessageDisplay_File = false ->
         testFlag options LogMessageDisplay_Message = false ->
         queue' = (mMessages (self s) ++ [LF])%list))
  /\ (forall s0 s,
        mMessages (self s0) = [] -> reachable s0 s ->
        Forall newlineTerminated (mMessages (self s))).
Proof.
  split.
  - intros date threadId module level function fileName line message s Hmode
      options queue'.
    assert (queue'
            = (mMessages (self s)
               ++ [enqueue_text options (mLevel (self s)) date threadId
                     module level function fileName line message
                   +:+ LF])%list) as Hqueue
      by (by apply enqueue_queue).
    split; [|split].
    + eexists. split; [exact Hqueue|]. apply StringFacts.endsWith_snoc.
    + rewrite Hqueue, length_app. cbn. lia.
    + intros HDef HL HM HD HT HF HMsg. rewrite Hqueue. do 2 f_equal.
      unfold enqueue_text, enqueue_fileLine, enqueue_compose.
      rewrite HDef, HL, HM, HD, HT, HF, HMsg. reflexivity.
  - intros s0 s Hempty Hreach.
    induction Hreach as [|s s' _ IH Hstep]; [by rewrite Hempty|].
    destruct Hstep as [date threadId module level function fileName line
                         message s| mode s | s | s].
    + destruct (decide (mMode (self s) = Disabled)) as [Hd|Hd].
      * by rewrite enqueue_disabled.
      * rewrite enqueue_queue by done. apply Forall_app. split; [done|].
        apply Forall_singleton, StringFacts.endsWith_snoc.
    + done.
    + by rewrite run_turn_queue.
    + destruct (closeDestination_stops s) as [-> _]. done.
Qed.

Lemma enqueue_queues_one_line_witness :
  let s := mkSys (Sample.writer "logs/app.log" OnlyFile Debug 0
                    ["earlier" +:+ LF] false Sample.may2)
                 (Sample.worldAt Sample.may2 ∅ ∅ ∅) in
  mMessages (self (@enqueue Sample.enumerators (Sample.noon Sample.may2)
                     "0x1" "Net" Error "main" "a.cpp" 10 "timeout" s).2)
  = (["earlier" +:+ LF] ++ [LF])%list.
Proof.
  intros s.
  apply (proj1 (@enqueue_queues_one_line Sample.enumerators)
           (Sample.noon Sample.may2) "0x1" "Net" Error "main" "a.cpp" 10
           "timeout" s); try reflexivity.
  vm_compute. done.
Defined.

(** ** The duplicate-name search *)

Lemma duplicateName_first fileDestination fileExtension n :
  n <= 1 ->
  duplicateName fileDestination fileExtension n
  = fileDestination +:+ "." +:+ fileExtension +:+ "".
Proof.
  intros Hn. unfold duplicateName.
  destruct (Z.ltb_spec 1 n) as [?|_]; [lia|]. reflexivity.
Qed.

Lemma duplicateName_next fileDestination fileExtension n :
  1 < n ->
  duplicateName fileDestination fileExtension n
  = fileDestination +:+ "(" +:+ QString.number n +:+ ")." +:+ fileExtension
    +:+ "".
Proof.
  intros Hn. unfold duplicateName.
  destruct (Z.ltb_spec 1 n) as [_|?]; [|lia]. reflexivity.
Qed.

(** From 1 on, different suffix numbers give different names. *)
Lemma duplicateName_inj fileDestination fileExtension n m :
  1 <= n -> n < m ->
  duplicateName fileDestination fileExtension n
  <> duplicateName fileDestination fileExtension m.
Proof.
  intros Hn Hm Heq. rewrite (duplicateName_next _ _ m) in Heq by lia.
  destruct (decide (n = 1)) as [->|Hne].
  - rewrite duplicateName_first in Heq by lia.
    apply String.app_inj in Heq. discriminate Heq.
  - rewrite duplicateName_next in Heq by lia.
    apply String.app_inj in Heq.
    change ("(" +:+ QString.number n +:+ ")." +:+ fileExtension +:+ "")
      with (String "(" (QString.number n +:+ ")." +:+ fileExtension +:+ ""))
      in Heq.
    change ("(" +:+ QString.number m +:+ ")." +:+ fileExtension +:+ "")
      with (String "(" (QString.number m +:+ ")." +:+ fileExtension +:+ ""))
      in Heq.
    injection Heq as Heq. apply StringFacts.app_inv_tail in Heq.
    apply (inj pretty) in Heq. lia.
Qed.

(** More depth does not change a result. *)
Lemma generateDuplicateFilename_deeper fs fileDestination fileExtension :
  forall depth depth' n path,
    (depth <= depth')%nat ->
    generateDuplicateFilename depth fs fileDestination fileExtension n
    = Some path ->
    generateDuplicateFilename depth' fs fileDestination fileExtension n
    = Some path.
Proof.
  induction depth as [|d IH]; intros depth' n path Hle Hres; [done|].
  destruct depth' as [|d']; [lia|]. cbn in *.
  destruct (exists_on fs (duplicateName fileDestination fileExtension n));
    [|done].
  apply IH; [lia|done].
Qed.

(** The search among the names that exist, [X] being a set that holds all
    of them from suffix number [n] on. *)
Lemma generateDuplicateFilename_search fs fileDestination fileExtension :
  forall depth (X : gset string) n,
    1 <= n ->
    (forall j, n <= j ->
       exists_on fs (duplicateName fileDestination fileExtension j) = true ->
       duplicateName fileDestination fileExtension j ∈ X) ->
    (size X < depth)%nat ->
    exists k,
      n <= k <= n + Z.of_nat (size X)
      /\ exists_on fs (duplicateName fileDestination fileExtension k) = false
      /\ (forall j, n <= j < k ->
            exists_on fs (duplicateName fileDestination fileExtension j)
            = true)
      /\ generateDuplicateFilename depth fs fileDestination fileExtension n
         = Some (duplicateName fileDestination fileExtension k).
Proof.
  induction depth as [|d IH]; intros X n Hn HX Hsize; [lia|].
  destruct (exists_on fs (duplicateName fileDestination fileExtension n))
    eqn:Hex.
  - assert (duplicateName fileDestination fileExtension n ∈ X) as Hin
      by (apply HX; [lia|done]).
    assert (size X = S (size (X ∖ {[duplicateName fileDestination
                                      fileExtension n]}))) as HsizeX.
    { rewrite size_difference by set_solver. rewrite size_singleton.
      assert (size X <> 0%nat); [|lia].
      intros Hz. apply size_empty_inv in Hz. set_solver. }
    destruct (IH (X ∖ {[duplicateName fileDestination fileExtension n]})
                 (n + 1)) as (k & Hk & Hfree & Hbelow & Hres).
    + lia.
    + intros j Hj Hexj. apply elem_of_difference. split.
      * apply HX; [lia|done].
      * intros Heq%elem_of_singleton. symmetry in Heq.
        by apply duplicateName_inj in Heq; [|lia..].
    + lia.
    + exists k. split; [lia|]. split; [done|]. split.
      * intros j Hj. destruct (decide (j = n)) as [->|?]; [done|].
        apply Hbelow. lia.
      * cbn. by rewrite Hex.
  - exists n. split; [lia|]. split; [done|]. split; [intros j Hj; lia|].
    cbn. by rewrite Hex.
Qed.

(** C7, as stated, fails where the existing suffixes have a gap: with
    a.log and a(3).log on disk the highest suffix is 3, and the name found
    is a(2).log, not a(4).log. *)
Lemma generateDuplicateFilename_fills_gap :
  let fs : gmap string string := {["a.log" := ""; "a(3).log" := ""]} in
  exists_on fs (duplicateName "a" "log" 1) = true
  /\ exists_on fs (duplicateName "a" "log" 3) = true
  /\ (forall depth, (2 <= depth)%nat ->
        generateDuplicateFilename depth fs "a" "log" 1 = Some "a(2).log")
  /\ duplicateName "a" "log" 4 = "a(4).log".
Proof.
  repeat split; try (vm_compute; reflexivity).
  intros depth Hd.
  apply (generateDuplicateFilename_deeper _ _ _ 2); [done|].
  vm_compute. reflexivity.
Qed.

(** C7 (amended): for every finite set of existing files the search comes
    back, within as many nested calls as there are files plus one, and it
    yields the name with the lowest suffix number, from the starting
    number on, that no existing file has: every lower number is taken. The
    number found exceeds the starting one by at most the number of
    files. *)
Theorem generateDuplicateFilename_lowest_unused fs fileDestination
    fileExtension n :
  1 <= n ->
  exists k,
    n <= k <= n + Z.of_nat (size fs)
    /\ exists_on fs (duplicateName fileDestination fileExtension k) = false
    /\ (forall j, n <= j < k ->
          exists_on fs (duplicateName fileDestination fileExtension j) = true)
    /\ (forall depth, (size fs < depth)%nat ->
          generateDuplicateFilename depth fs fileDestination fileExtension n
          = Some (duplicateName fileDestination fileExtension k)).
Proof.
  intros Hn.
  destruct (generateDuplicateFilename_search fs fileDestination fileExtension
              (S (size fs)) (dom fs) n) as (k & Hk & Hfree & Hbelow & Hres).
  - done.
  - intros j _ Hex. apply bool_decide_eq_true_1 in Hex.
    by apply elem_of_dom.
  - rewrite size_dom. lia.
  - rewrite size_dom in Hk. exists k. repeat split; try done; try lia.
    intros depth Hdepth.
    apply (generateDuplicateFilename_deeper _ _ _ (S (size fs))); [lia|done].
Qed.

Lemma generateDuplicateFilename_lowest_unused_witness :
  let fs : gmap string string :=
    {["a.log" := ""; "a(2).log" := ""; "a(3).log" := ""]} in
  exists k,
    1 <= k <= 1 + Z.of_nat (size fs)
    /\ exists_on fs (duplicateName "a" "log" k) = false
    /\ (forall j, 1 <= j < k -> exists_on fs (duplicateName "a" "log" j) = true)
    /\ (forall depth, (size fs < depth)%nat ->
          generateDuplicateFilename depth fs "a" "log" 1
          = Some (duplicateName "a" "log" k)).
Proof.
  intros fs. apply (generateDuplicateFilename_lowest_unused fs "a" "log" 1).
  lia.
Defined.

Example generateDuplicateFilename_after_three :
  generateDuplicateFilename 4
    {["a.log" := ""; "a(2).log" := ""; "a(3).log" := ""]} "a" "log" 1
  = Some "a(4).log".
Proof. vm_compute. reflexivity. Qed.


(** * Further properties of the code *)

(** ** Level names and the destination of the constructor *)

(** X1: [levelToText] gives every level a name of its own, never the empty
    text: the [Level] field of a line identifies the level. *)
Theorem levelToText_inj a b :
  (levelToText a = levelToText b <-> a = b) /\ levelToText a <> "".
Proof.
  split; [|by destruct a]. split; [|by intros ->].
  destruct a, b; intros Heq; try reflexivity; discriminate Heq.
Qed.

Lemma endsWith_chop c s :
  QString.endsWith c s = true ->
  s = QString.left (String.length s - 1)%nat s +:+ String c "".
Proof.
  induction s as [|d r IH]; [done|]. destruct r as [|e r'].
  - cbn. intros Hc. apply bool_decide_eq_true_1 in Hc. by subst d.
  - intros Hc. change (QString.endsWith c (String d (String e r')))
      with (QString.endsWith c (String e r')) in Hc.
    specialize (IH Hc).
    replace (String.length (String d (String e r')) - 1)%nat
      with (S (String.length (String e r') - 1)) by (cbn; lia).
    change (QString.left (S (String.length (String e r') - 1))
              (String d (String e r')))
      with (String d (QString.left (String.length (String e r') - 1)
                        (String e r'))).
    rewrite StringFacts.app_cons. by rewrite <- IH.
Qed.

Lemma startsWith_app c a d b :
  QString.startsWith c a = false -> d <> c ->
  QString.startsWith c (a +:+ String d b) = false.
Proof.
  intros Ha Hd. destruct a as [|x a].
  - rewrite StringFacts.app_nil_l. cbn. by rewrite bool_decide_eq_false_2.
  - rewrite StringFacts.app_cons. exact Ha.
Qed.

(** The name [dir.filePath] puts behind a folder that ends with a slash
    stands behind a folder that ends with a slash. *)
Lemma QDir_filePath_shape path fileName :
  QString.endsWith "/" path = true ->
  QString.startsWith "/" fileName = false ->
  fileName <> "" ->
  exists folder,
    QDir_filePath path fileName = folder +:+ fileName
    /\ QString.endsWith "/" folder = true
    /\ (path = folder \/ path = folder +:+ "/").
Proof.
  intros Hpath Hrel Hname. unfold QDir_filePath. rewrite Hrel.
  unfold QString.isEmpty at 1. rewrite bool_decide_eq_false_2 by done.
  unfold QDir_path. rewrite Hpath. cbn [andb].
  destruct (1 <? QString.size path) eqn:Hsize.
  - pose proof (endsWith_chop _ _ Hpath) as Hchop.
    set (dir := QString.left (String.length path - 1) path) in *.
    destruct (QString.isEmpty dir || QString.endsWith "/" dir) eqn:Hdir.
    + apply orb_true_iff in Hdir. destruct Hdir as [Hdir|Hdir].
      * apply bool_decide_eq_true_1 in Hdir. rewrite Hdir in Hchop.
        rewrite Hchop in Hsize. done.
      * exists dir. split; [done|]. split; [done|]. by right.
    + exists (dir +:+ "/"). split; [by rewrite StringFacts.app_assoc|].
      split; [apply StringFacts.endsWith_snoc|]. by left.
  - rewrite Hpath, orb_true_r. exists path. by repeat split; [|left].
Qed.

(** X2: the destination the constructor computes always contains a dot,
    and it is a file name behind a folder that ends with a slash: the
    name given if it has a dot, the name with .log appended if it has
    none, the date with .log if it is empty. For a name given the folder
    is the one passed (or logs/ under the current path), with a slash
    appended if it ends with none; for the empty name [QDir::filePath]
    takes one slash off a folder that ends with two. *)
Theorem constructor_destination_shape cwd today fileDestination
    fileFolderDestination :
  let dest :=
    constructor_destination cwd today fileDestination fileFolderDestination in
  let given :=
    if QString.isEmpty fileFolderDestination then cwd +:+ "/logs/"
    else fileFolderDestination in
  let slashed :=
    if QString.endsWith "/" given then given else given +:+ "/" in
  let name :=
    if QString.isEmpty fileDestination then today +:+ ".log"
    else if QString.contains "." fileDestination then fileDestination
    else fileDestination +:+ ".log" in
  QString.contains "." dest = true
  /\ (QString.isEmpty fileDestination = false -> dest = slashed +:+ name)
  /\ (QString.startsWith "/" today = false ->
      exists folder,
        dest = folder +:+ name
        /\ QString.endsWith "/" folder = true
        /\ (slashed = folder \/ slashed = folder +:+ "/")).
Proof.
  intros dest given slashed name. unfold dest, constructor_destination.
  fold given. fold slashed.
  assert (QString.endsWith "/" slashed = true) as Hslashed.
  { unfold slashed. destruct (QString.endsWith "/" given) eqn:E; [done|].
    apply StringFacts.endsWith_snoc. }
  change (QString.arg "%1.log" [today]) with (today +:+ ".log").
  unfold name. destruct (QString.isEmpty fileDestination).
  - split; [|split; [done|]].
    + unfold QDir_filePath.
      destruct (QString.startsWith "/" (today +:+ ".log"));
        [apply StringFacts.contains_skip; reflexivity|].
      unfold QString.isEmpty at 1.
      rewrite bool_decide_eq_false_2 by apply StringFacts.app_not_nil.
      destruct (QString.isEmpty (QDir_path slashed)
                || QString.endsWith "/" (QDir_path slashed)).
      * do 2 apply StringFacts.contains_skip. reflexivity.
      * do 3 apply StringFacts.contains_skip. reflexivity.
    + intros Hrel. apply QDir_filePath_shape; [done| |].
      * by apply startsWith_app.
      * apply StringFacts.app_not_nil.
  - destruct (QString.contains "." fileDestination) eqn:Hdot; cbn [negb].
    + split; [by apply StringFacts.contains_skip|]. split; [done|].
      intros _. exists slashed. by repeat split; [|left].
    + split; [apply StringFacts.contains_skip; reflexivity|].
      split; [by rewrite StringFacts.app_assoc|].
      intros _. exists slashed.
      split; [by rewrite StringFacts.app_assoc|]. by split; [|left].
Qed.

(** ** [enqueue]: what it touches, when it signals, in which order it queues *)

Lemma sameButQueue_refl s : sameButQueue s s.
Proof. destruct s as [[] []]. by split. Qed.

Lemma sameButQueue_trans s1 s2 s3 :
  sameButQueue s1 s2 -> sameButQueue s2 s3 -> sameButQueue s1 s3.
Proof.
  destruct s1 as [[] []], s2 as [[] []], s3 as [[] []].
  unfold sameButQueue. cbn. intros [H1 H2] [H3 H4].
  injection H1 as <- <- <- <- <- <- <- <- <- <- <- <-.
  injection H3 as <- <- <- <- <- <- <- <- <- <- <- <-.
  injection H2 as <- <- <- <- <- <- <- <- <-.
  injection H4 as <- <- <- <- <- <- <- <- <-.
  by split.
Qed.

(** What the relation keeps, field by field. *)
Lemma sameButQueue_keeps s s' :
  sameButQueue s s' ->
  mFileDestination (self s') = mFileDestination (self s)
  /\ mMode (self s') = mMode (self s)
  /\ mLevel (self s') = mLevel (self s)
  /\ mMessageOptions (self s') = mMessageOptions (self s)
  /\ mQuit (self s') = mQuit (self s)
  /\ currentDate (self s') = currentDate (self s)
  /\ files (env s') = files (env s)
  /\ console (env s') = console (env s)
  /\ zipRuns (env s') = zipRuns (env s)
  /\ unwritable (env s') = unwritable (env s)
  /\ locked (env s') = locked (env s)
  /\ wallClock (env s') = wallClock (env s).
Proof.
  destruct s as [[] []], s' as [[] []]. unfold sameButQueue. cbn.
  intros [H1 H2].
  injection H1 as <- <- <- <- <- <- <- <- <- <- <- <-.
  injection H2 as <- <- <- <- <- <- <- <- <-.
  by repeat split.
Qed.

Section EnqueueFacts.
Context `{Enumerators}.

Lemma enqueue_sameButQueue date threadId module level function fileName line
    message s :
  sameButQueue s
    (enqueue date threadId module level function fileName line message s).2.
Proof.
  destruct (decide (mMode (self s) = Disabled)) as [Hd|Hd].
  { rewrite enqueue_disabled by done. apply sameButQueue_refl. }
  unfold enqueue, returning. run.
  rewrite bool_decide_eq_false_2 by done. run.
  destruct (_ <? _); run; [|destruct s as [[] []]; by split].
  destruct (mIsStop (self s)); unfold wakeAll; run;
    destruct s as [[] []]; by split.
Qed.

(** X3: [enqueue] does no input or output. Whatever the mode and the
    arguments, the state after the call is the state before it but for the
    queue, the start of the wake-up timer, the count of wake-ups and the
    clock readings taken: files, console, 7z runs, destination, mode,
    quit flag and tracked date are untouched. In Disabled mode the state
    is not changed at all. *)
Theorem enqueue_no_io date threadId module level function fileName line
    message s :
  let s' :=
    (enqueue date threadId module level function fileName line message s).2 in
  sameButQueue s s'
  /\ files (env s') = files (env s)
  /\ console (env s') = console (env s)
  /\ zipRuns (env s') = zipRuns (env s)
  /\ currentDate (self s') = currentDate (self s)
  /\ (mMode (self s) = Disabled -> s' = s).
Proof.
  cbn zeta.
  pose proof (enqueue_sameButQueue date threadId module level function
                fileName line message s) as Hsame.
  destruct (sameButQueue_keeps _ _ Hsame)
    as (_ & _ & _ & _ & _ & Hdate & Hfiles & Hconsole & Hzip & _).
  split; [exact Hsame|]. do 4 (split; [done|]).
  intros Hd. by rewrite enqueue_disabled.
Qed.

End EnqueueFacts.
Section EnqueueOrder.
Context `{Enumerators}.

(** The timer and the signal after one call. *)
Lemma enqueue_timer date threadId module level function fileName line
    message s :
  mMode (self s) <> Disabled ->
  let s' :=
    (enqueue date threadId module level function fileName line message s).2 in
  let late :=
    writeMSec (self s)
    <? monoClock (env s) (ticks (env s)) - wakeUpTime (self s) in
  wakes (env s')
  = (if late && negb (mIsStop (self s)) then S (wakes (env s))
     else wakes (env s))
  /\ wakeUpTime (self s')
     = (if late then monoClock (env s) (S (ticks (env s)))
        else wakeUpTime (self s))
  /\ ticks (env s')
     = (if late then S (S (ticks (env s))) else S (ticks (env s))).
Proof.
  intros Hd. cbn zeta. unfold enqueue, returning. run.
  rewrite bool_decide_eq_false_2 by done. run.
  destruct (_ <? _); run; [|done].
  destruct (mIsStop (self s)); unfold wakeAll; run; done.
Qed.

(** X4: the wake-ups of [enqueue] are rate limited. A call signals the
    worker at most once, and not at all when the writer is stopped or at
    most [writeMSec] ms have passed since the timer was started. A call
    that finds more has the timer restarted, and the call after it does
    not signal if at most [writeMSec] ms have passed since the restart. *)
Theorem enqueue_rate_limited c1 c2 s :
  mMode (self s) <> Disabled ->
  let elapsed := monoClock (env s) (ticks (env s)) - wakeUpTime (self s) in
  let s1 := enqueueCall c1 s in
  let s2 := enqueueCall c2 s1 in
  (wakes (env s1) <= S (wakes (env s)))%nat
  /\ (mIsStop (self s) = true -> wakes (env s1) = wakes (env s))
  /\ (elapsed <= writeMSec (self s) -> wakes (env s1) = wakes (env s))
  /\ (writeMSec (self s) < elapsed ->
      monoClock (env s) (S (S (ticks (env s))))
      - monoClock (env s) (S (ticks (env s))) <= writeMSec (self s) ->
      wakes (env s2) = wakes (env s1)).
Proof.
  intros Hd elapsed s1 s2.
  destruct (enqueue_timer (call_date c1) (call_threadId c1) (call_module c1)
              (call_level c1) (call_function c1) (call_fileName c1)
              (call_line c1) (call_message c1) s Hd) as (Hw & Ht & Hk).
  fold (enqueueCall c1 s) in Hw, Ht, Hk. fold s1 in Hw, Ht, Hk.
  fold elapsed in Hw, Ht, Hk.
  split; [|split; [|split]].
  - rewrite Hw. destruct (_ && _); lia.
  - intros Hstop. rewrite Hw, Hstop. by rewrite andb_false_r.
  - intros Hle. rewrite Hw.
    destruct (Z.ltb_spec (writeMSec (self s)) elapsed); [lia|done].
  - intros Hlt Hnext.
    destruct (Z.ltb_spec (writeMSec (self s)) elapsed) as [_|?]; [|lia].
    destruct (sameButQueue_keeps _ _
                (enqueue_sameButQueue (call_date c1) (call_threadId c1)
                   (call_module c1) (call_level c1) (call_function c1)
                   (call_fileName c1) (call_line c1) (call_message c1) s))
      as (_ & Hmode & _).
    fold (enqueueCall c1 s) in Hmode. fold s1 in Hmode.
    assert (mMode (self s1) <> Disabled) as Hd1 by (by rewrite Hmode).
    destruct (enqueue_timer (call_date c2) (call_threadId c2) (call_module c2)
                (call_level c2) (call_function c2) (call_fileName c2)
                (call_line c2) (call_message c2) s1 Hd1) as (Hw2 & _).
    fold (enqueueCall c2 s1) in Hw2. fold s2 in Hw2. rewrite Hw2.
    assert (writeMSec (self s1) = writeMSec (self s)
            /\ monoClock (env s1) = monoClock (env s)) as [Hms Hmono].
    { destruct (enqueue_sameButQueue (call_date c1) (call_threadId c1)
                  (call_module c1) (call_level c1) (call_function c1)
                  (call_fileName c1) (call_line c1) (call_message c1) s)
        as [Hself Henv].
      fold (enqueueCall c1 s) in Hself, Henv. fold s1 in Hself, Henv.
      split.
      - apply (f_equal writeMSec) in Hself. by destruct (self s1).
      - apply (f_equal monoClock) in Henv. by destruct (env s1). }
    rewrite Hms, Hmono, Ht, Hk.
    destruct (Z.ltb_spec (writeMSec (self s))
                (monoClock (env s) (S (S (ticks (env s))))
                 - monoClock (env s) (S (ticks (env s))))); [lia|done].
Qed.

(** X5: the file segment [enqueue] computes is empty or a text in braces;
    it never starts with a space, so the correction the custom composition
    applies to a segment with a leading space never takes effect. It is
    empty whenever the File flag is off, the file name is empty, or the
    level the writer is configured with is above Debug. *)
Theorem enqueue_fileLine_braces options mLevel function fileName line :
  let segment := enqueue_fileLine options mLevel function fileName line in
  (segment = "" \/ exists x, segment = "{" +:+ x +:+ "}")
  /\ (if QString.startsWith " " segment then QString.right 1 segment
      else segment) = segment
  /\ (testFlag options LogMessageDisplay_File = false
      \/ fileName = "" \/ LogLevel_le mLevel Debug = false ->
      segment = "").
Proof.
  cbn zeta. split; [|split].
  - destruct (fileLine_shape options mLevel function fileName line)
      as [->|[x ->]]; [by left|right]. by exists x.
  - by rewrite fileLine_no_space.
  - unfold enqueue_fileLine. intros [-> | [-> | ->]];
      rewrite ?andb_false_r, ?andb_false_l; reflexivity.
Qed.

Lemma enqueueCall_queue c s :
  mMode (self s) <> Disabled ->
  mMessages (self (enqueueCall c s))
  = (mMessages (self s) ++ [queuedLine (self s) c])%list.
Proof. intros Hd. by apply enqueue_queue. Qed.

Lemma enqueueAll_sameButQueue calls : forall s,
  sameButQueue s (enqueueAll calls s).
Proof.
  induction calls as [|c calls IH]; intros s; [apply sameButQueue_refl|].
  cbn. eapply sameButQueue_trans; [|apply IH].
  apply enqueue_sameButQueue.
Qed.

Lemma enqueueAll_queue calls : forall s,
  mMode (self s) <> Disabled ->
  mMessages (self (enqueueAll calls s))
  = (mMessages (self s) ++ map (queuedLine (self s)) calls)%list.
Proof.
  induction calls as [|c calls IH]; intros s Hd; [by rewrite app_nil_r|].
  cbn [enqueueAll foldl map]. fold (enqueueAll calls (enqueueCall c s)).
  destruct (sameButQueue_keeps _ _
              (enqueue_sameButQueue (call_date c) (call_threadId c)
                 (call_module c) (call_level c) (call_function c)
                 (call_fileName c) (call_line c) (call_message c) s))
    as (_ & Hmode & Hlevel & Hopt & _).
  fold (enqueueCall c s) in Hmode, Hlevel, Hopt.
  rewrite IH by (by rewrite Hmode). rewrite enqueueCall_queue by done.
  rewrite <- app_assoc. cbn [app]. do 2 f_equal.
  apply map_ext. intros c'. unfold queuedLine. by rewrite Hlevel, Hopt.
Qed.

(** X6: the queue is first in, first out. After any sequence of calls of
    [enqueue] in a mode other than Disabled the queue is the queue before
    them followed by one line per call, in the order of the calls; none
    is lost, none is doubled. In Disabled mode the calls leave the state
    as it is. *)
Theorem enqueueAll_fifo calls s :
  (mMode (self s) <> Disabled ->
   mMessages (self (enqueueAll calls s))
   = (mMessages (self s) ++ map (queuedLine (self s)) calls)%list
   /\ length (mMessages (self (enqueueAll calls s)))
      = (length (mMessages (self s)) + length calls)%nat)
  /\ (mMode (self s) = Disabled -> enqueueAll calls s = s).
Proof.
  split.
  - intros Hd. rewrite enqueueAll_queue by done. split; [done|].
    by rewrite length_app, length_map.
  - revert s. induction calls as [|c calls IH]; intros s Hd; [done|].
    cbn [enqueueAll foldl]. fold (enqueueAll calls (enqueueCall c s)).
    unfold enqueueCall at 1. rewrite enqueue_disabled by done. cbn [snd].
    by apply IH.
Qed.

End EnqueueOrder.
Lemma enqueue_rate_limited_witness :
  let s := mkSys (Sample.writer "logs/app.log" OnlyFile Debug Sample.Default
                    [] false Sample.may2)
                 (mkWorld ∅ ∅ ∅ [] (fun _ => Sample.noon Sample.may2)
                    (fun k => 2000 + Z.of_nat k) 0 [] (fun _ => (true, false))
                    0 (fun _ => "")) in
  let c := mkCall (Sample.noon Sample.may2) "0x1" "Net" Error "main" "a.cpp"
             10 "timeout" in
  let s1 := @enqueueCall Sample.enumerators c s in
  let s2 := @enqueueCall Sample.enumerators c s1 in
  wakes (env s1) = 1%nat /\ wakes (env s2) = wakes (env s1).
Proof.
  intros s c s1 s2. split; [vm_compute; reflexivity|].
  apply (@enqueue_rate_limited Sample.enumerators c c s);
    vm_compute; done.
Defined.

Section MessageText.
Context `{Enumerators}.

(** X7: the text of the message is queued as it is given. When the
    Default test or the Message flag holds, the queued line ends with the
    message, behind a head that does not depend on it; when neither
    holds, the message does not enter the line at all. *)
Theorem enqueue_text_message options mLevel date threadId module level
    function fileName line :
  (testFlag options LogMessageDisplay_Default = true
   \/ testFlag options LogMessageDisplay_Message = true ->
   exists head, forall message,
     enqueue_text options mLevel date threadId module level function
       fileName line message = head +:+ message)
  /\ (testFlag options LogMessageDisplay_Default = false ->
      testFlag options LogMessageDisplay_Message = false ->
      forall message1 message2,
        enqueue_text options mLevel date threadId module level function
          fileName line message1
        = enqueue_text options mLevel date threadId module level function
            fileName line message2).
Proof.
  unfold enqueue_text.
  set (segment := enqueue_fileLine options mLevel function fileName line).
  split.
  - intros Hshow.
    destruct (testFlag options LogMessageDisplay_Default) eqn:Hdef.
    + exists ("[" +:+ levelToText level +:+ "][" +:+ module +:+ "]["
              +:+ QDateFormat.stamp date +:+ "][" +:+ threadId +:+ "]"
              +:+ segment +:+ " ").
      intros message.
      change (QString.arg "[%1][%2][%3][%4]%5 %6"
                [levelToText level; module; QDateFormat.stamp date; threadId;
                 segment; message])
        with ("[" +:+ levelToText level +:+ "][" +:+ module +:+ "]["
              +:+ QDateFormat.stamp date +:+ "][" +:+ threadId +:+ "]"
              +:+ segment +:+ " " +:+ message +:+ "").
      by rewrite StringFacts.app_nil_r, !StringFacts.app_assoc.
    + destruct Hshow as [?|Hmsg]; [done|]. unfold enqueue_compose.
      rewrite Hmsg.
      set (text := if negb (QString.isEmpty segment) then _ else _).
      destruct (QString.isEmpty text || QString.endsWith " " text).
      * exists text. intros message.
        change (QString.arg "%1" [message]) with (message +:+ "").
        by rewrite StringFacts.app_nil_r.
      * exists (text +:+ " "). intros message.
        change (QString.arg " %1" [message]) with (" " +:+ message +:+ "").
        by rewrite StringFacts.app_nil_r, StringFacts.app_assoc.
  - intros Hdef Hmsg message1 message2. rewrite Hdef.
    unfold enqueue_compose. by rewrite Hmsg.
Qed.

End MessageText.

(** ** The file writer and the rotation: further properties *)

Lemma left_dropLeft n s : QString.left n s +:+ QString.dropLeft n s = s.
Proof.
  revert s. induction n as [|n IH]; intros [|c s]; try done.
  cbn. by rewrite StringFacts.app_cons, IH.
Qed.

Lemma insert_length i t s :
  0 <= i ->
  String.length (QString.insert i t s)
  = (String.length s + String.length t)%nat.
Proof.
  intros Hi. unfold QString.insert.
  destruct (Z.ltb_spec i 0); [lia|].
  rewrite <- (left_dropLeft (Z.to_nat i) s) at 3.
  rewrite !StringFacts.length_app. lia.
Qed.

Lemma underscores_length d : (1 <= String.length (QDateFormat.underscores d))%nat.
Proof.
  unfold QDateFormat.underscores. rewrite StringFacts.length_app. cbn. lia.
Qed.

Lemma rotatedName_short w :
  QString.size (mFileDestination w) < 4 -> rotatedName w = mFileDestination w.
Proof.
  intros Hs. unfold rotatedName, QString.insert.
  destruct (Z.ltb_spec (QString.size (mFileDestination w) - 4) 0); [done|lia].
Qed.

Lemma rotatedName_long w :
  4 <= QString.size (mFileDestination w) ->
  String.length (rotatedName w)
  = (String.length (mFileDestination w)
     + String.length (QDateFormat.underscores (currentDate w)))%nat
  /\ rotatedName w <> mFileDestination w.
Proof.
  intros Hs. assert (String.length (rotatedName w)
    = (String.length (mFileDestination w)
       + String.length (QDateFormat.underscores (currentDate w)))%nat) as Hlen.
  { unfold rotatedName. apply insert_length. lia. }
  split; [done|]. intros Heq. rewrite Heq in Hlen.
  pose proof (underscores_length (currentDate w)). lia.
Qed.

(** X8: in console mode [write] prints the lines of the batch on the
    console, in their order, and does nothing else: no file is touched, no
    clock is read and no rotation takes place, even if the day has
    changed. *)
Theorem write_console_only messages s :
  mMode (self s) = OnlyConsole ->
  let s' := (write messages s).2 in
  console (env s') = (console (env s) ++ messages)%list
  /\ self s' = self s
  /\ files (env s') = files (env s)
  /\ zipRuns (env s') = zipRuns (env s)
  /\ ticks (env s') = ticks (env s).
Proof. intros Hm. by rewrite write_console. Qed.

Lemma write_console_only_witness :
  let s := Sample.nextDay {["logs/app.log" := "old"]} ∅ ∅ OnlyConsole [] false in
  let s' := (write ["first" +:+ LF; "second" +:+ LF] s).2 in
  console (env s') = (console (env s) ++ ["first" +:+ LF; "second" +:+ LF])%list
  /\ self s' = self s
  /\ files (env s') = files (env s)
  /\ zipRuns (env s') = zipRuns (env s)
  /\ ticks (env s') = ticks (env s).
Proof.
  intros s.
  apply (write_console_only ["first" +:+ LF; "second" +:+ LF] s). reflexivity.
Defined.

(** The flush on a day without rotation. *)
Lemma write_sameDay messages s :
  mMode (self s) <> OnlyConsole ->
  mFileDestination (self s) ∉ unwritable (env s) ->
  renameFileIfFull s = ("", tick s) ->
  write messages s
  = (tt, appendTo (mFileDestination (self s)) (concatLines messages)
           (if bool_decide (mMode (self s) = Full) then messages else [])
           (tick s)).
Proof.
  intros Hm Hu Hrot. rewrite write_file; [|done|by rewrite Hrot].
  by rewrite Hrot.
Qed.

(** X9: the destination is only ever appended to. On a flush in a mode
    other than console, with the destination openable and no rotation due,
    the destination holds what it held (nothing if it was missing)
    followed by the lines of the batch in their order; no other file is
    touched, the writer is unchanged, and the console receives the batch
    in Full mode and nothing otherwise. *)
Theorem write_appends messages s :
  mMode (self s) <> OnlyConsole ->
  mFileDestination (self s) ∉ unwritable (env s) ->
  currentDate (self s) = date (wallClock (env s) (ticks (env s))) ->
  let s' := (write messages s).2 in
  files (env s') !! mFileDestination (self s)
  = Some (default "" (files (env s) !! mFileDestination (self s))
          +:+ concatLines messages)
  /\ (forall path, path <> mFileDestination (self s) ->
        files (env s') !! path = files (env s) !! path)
  /\ self s' = self s
  /\ console (env s')
     = (console (env s)
        ++ (if bool_decide (mMode (self s) = Full) then messages else []))%list.
Proof.
  intros Hm Hu Hd.
  rewrite write_sameDay by (by try apply renameFileIfFull_sameDay).
  cbn. rewrite lookup_insert_eq. repeat split.
  intros path Hne. by rewrite lookup_insert_ne.
Qed.

Lemma write_appends_witness :
  let s := mkSys (Sample.writer "logs/app.log" Full Debug Sample.Default
                    [] false Sample.may2)
                 (Sample.worldAt Sample.may2 {["logs/app.log" := "old"]} ∅ ∅) in
  let messages := ["first" +:+ LF; "second" +:+ LF] in
  let s' := (write messages s).2 in
  files (env s') !! mFileDestination (self s)
  = Some (default "" (files (env s) !! mFileDestination (self s))
          +:+ concatLines messages)
  /\ (forall path, path <> mFileDestination (self s) ->
        files (env s') !! path = files (env s) !! path)
  /\ self s' = self s
  /\ console (env s')
     = (console (env s)
        ++ (if bool_decide (mMode (self s) = Full) then messages else []))%list.
Proof.
  intros s messages. apply (write_appends messages s).
  - vm_compute. done.
  - cbn. set_solver.
  - reflexivity.
Defined.

(** X10: a flush of the empty batch still opens the destination: a missing
    destination is created as an empty file, an existing one is left as it
    is, and nothing is printed. *)
Theorem write_empty_batch s :
  mMode (self s) <> OnlyConsole ->
  mFileDestination (self s) ∉ unwritable (env s) ->
  currentDate (self s) = date (wallClock (env s) (ticks (env s))) ->
  let s' := (write [] s).2 in
  (files (env s) !! mFileDestination (self s) = None ->
   files (env s') = <[mFileDestination (self s) := ""]> (files (env s)))
  /\ (is_Some (files (env s) !! mFileDestination (self s)) ->
      files (env s') = files (env s))
  /\ console (env s') = console (env s).
Proof.
  intros Hm Hu Hd.
  rewrite write_sameDay by (by try apply renameFileIfFull_sameDay).
  cbn. split; [|split].
  - by intros ->.
  - intros [text Htext]. rewrite Htext. cbn.
    by rewrite StringFacts.app_nil_r, insert_id.
  - by destruct (bool_decide _); rewrite app_nil_r.
Qed.

Lemma write_empty_batch_witness :
  let s := mkSys (Sample.writer "logs/app.log" OnlyFile Debug Sample.Default
                    [] false Sample.may2)
                 (Sample.worldAt Sample.may2 ∅ ∅ ∅) in
  let s' := (write [] s).2 in
  (files (env s) !! mFileDestination (self s) = None ->
   files (env s') = <[mFileDestination (self s) := ""]> (files (env s)))
  /\ (is_Some (files (env s) !! mFileDestination (self s)) ->
      files (env s') = files (env s))
  /\ console (env s') = console (env s).
Proof.
  intros s. apply (write_empty_batch s).
  - vm_compute. done.
  - cbn. set_solver.
  - reflexivity.
Defined.
(** The rotation step when the rename goes through. *)
Lemma renameFileIfFull_renamed s old :
  currentDate (self s) <> date (wallClock (env s) (ticks (env s))) ->
  renameRefused (env s) (mFileDestination (self s)) (rotatedName (self s))
    = false ->
  files (env s) !! mFileDestination (self s) = Some old ->
  let s' := (renameFileIfFull s).2 in
  files (env s')
  = <[rotatedName (self s) := old]>
      (delete (mFileDestination (self s)) (files (env s)))
  /\ self s'
     = set_currentDate (date (wallClock (env s) (S (ticks (env s))))) (self s)
  /\ console (env s') = console (env s)
  /\ (renameFileIfFull s).1
     = (if mQuit (self s) then rotatedName (self s)
        else zipStatus (rotatedName (self s))
               (zipOutcome (env s) (length (zipRuns (env s))))
               (monoClock (env s) (S (S (S (ticks (env s)))))
                - monoClock (env s) (S (S (ticks (env s))))))
  /\ zipRuns (env s')
     = (if mQuit (self s) then zipRuns (env s)
        else (zipRuns (env s)
              ++ [["7z"; "a"; "-t7z"; "-mx9";
                   archiveName (rotatedName (self s));
                   rotatedName (self s)]])%list).
Proof.
  intros Hd Hr Hold. cbn zeta. destruct (mQuit (self s)) eqn:Hq.
  - rewrite renameFileIfFull_quit by done. cbn. by rewrite Hold.
  - rewrite renameFileIfFull_zip, zipFileCustom_eq by done. cbn.
    by rewrite Hold.
Qed.

(** X11: a rotation moves the destination file. When the day has changed
    and the rename goes through (destination of four characters or more),
    the text of the destination is found under the rotated name and the
    destination itself is gone. With the quit flag set, when no 7z process
    is started, that is all that happens on disk: every other file is as
    it was and the number of files is the same, nothing is lost and
    nothing overwritten. *)
Theorem renameFileIfFull_moves_file s old :
  currentDate (self s) <> date (wallClock (env s) (ticks (env s))) ->
  renameRefused (env s) (mFileDestination (self s)) (rotatedName (self s))
    = false ->
  files (env s) !! mFileDestination (self s) = Some old ->
  4 <= QString.size (mFileDestination (self s)) ->
  let s' := (renameFileIfFull s).2 in
  files (env s') !! rotatedName (self s) = Some old
  /\ files (env s') !! mFileDestination (self s) = None
  /\ (mQuit (self s) = true ->
      zipRuns (env s') = zipRuns (env s)
      /\ (forall path,
            path <> mFileDestination (self s) ->
            path <> rotatedName (self s) ->
            files (env s') !! path = files (env s) !! path)
      /\ size (files (env s')) = size (files (env s))).
Proof.
  intros Hd Hr Hold Hsize.
  destruct (renameFileIfFull_renamed s old Hd Hr Hold) as (Hfiles & _).
  destruct (rotatedName_long (self s) Hsize) as [_ Hne].
  pose proof Hr as Hrefused.
  apply renameRefused_false in Hr as (_ & _ & Hfree).
  cbn zeta. rewrite Hfiles. split; [|split].
  - apply lookup_insert_eq.
  - rewrite lookup_insert_ne by done. apply lookup_delete_eq.
  - intros Hquit. split; [|split].
    + by rewrite renameFileIfFull_quit.
    + intros path H1 H2.
      rewrite lookup_insert_ne, lookup_delete_ne by done. done.
    + rewrite map_size_insert_None by (by rewrite lookup_delete_ne).
      pose proof (map_size_delete_Some (mFileDestination (self s))
                    (files (env s))) as Hdel.
      rewrite Hdel by eauto.
      assert (size (files (env s)) <> 0%nat); [|lia].
      intros Hz%map_size_empty_inv. by rewrite Hz in Hold.
Qed.

Lemma renameFileIfFull_moves_file_witness :
  let s := Sample.nextDay {["logs/app.log" := "old"; "logs/other" := "x"]} ∅ ∅
             OnlyFile [] true in
  let s' := (renameFileIfFull s).2 in
  files (env s') !! "logs/app_2024_05_01.log" = Some "old"
  /\ files (env s') !! "logs/app.log" = None
  /\ zipRuns (env s') = []
  /\ (forall path,
        path <> mFileDestination (self s) -> path <> rotatedName (self s) ->
        files (env s') !! path = files (env s) !! path)
  /\ size (files (env s')) = 2%nat.
Proof.
  intros s.
  destruct (renameFileIfFull_moves_file s "old") as (H1 & H2 & H3).
  - vm_compute. done.
  - vm_compute. done.
  - vm_compute. done.
  - vm_compute. done.
  - destruct H3 as (H3 & H4 & H5); [reflexivity|].
    split; [exact H1|]. split; [exact H2|]. split; [exact H3|].
    split; [exact H4|exact H5].
Defined.

(** X12: a destination shorter than four characters is never rotated.
    The date would go in at a negative position, the name stays as it is
    and the rename of a file to its own name is refused, so the rotation
    step returns the empty result, renames nothing and keeps the tracked
    date, on every flush. From four characters on the rotated name is
    longer than the destination by the text of the date. *)
Theorem renameFileIfFull_short_destination s :
  (QString.size (mFileDestination (self s)) < 4 ->
   renameFileIfFull s = ("", tick s))
  /\ (4 <= QString.size (mFileDestination (self s)) ->
      String.length (rotatedName (self s))
      = (String.length (mFileDestination (self s))
         + String.length (QDateFormat.underscores (currentDate (self s))))%nat
      /\ rotatedName (self s) <> mFileDestination (self s)).
Proof.
  split; [|apply rotatedName_long].
  intros Hshort.
  destruct (decide (currentDate (self s)
                    = date (wallClock (env s) (ticks (env s))))) as [Hd|Hd].
  { by apply renameFileIfFull_sameDay. }
  apply renameFileIfFull_refused; [done|].
  rewrite rotatedName_short by done. unfold renameRefused.
  destruct (exists_on (files (env s)) (mFileDestination (self s))); [|done].
  apply orb_true_r.
Qed.

Lemma renameFileIfFull_short_destination_witness :
  let s := mkSys (Sample.writer "/a." OnlyFile Debug Sample.Default [] false
                    Sample.may1)
                 (Sample.worldAt Sample.may2 {["/a." := "old"]} ∅ ∅) in
  renameFileIfFull s = ("", tick s).
Proof.
  intros s. apply (proj1 (renameFileIfFull_short_destination s)).
  vm_compute. reflexivity.
Defined.
Lemma zipStatus_prefix path outcome elapsed :
  QString.isPrefixOf (path +:+ " to archive : ")
    (zipStatus path outcome elapsed) = true
  /\ QString.isEmpty (zipStatus path outcome elapsed) = false.
Proof.
  unfold zipStatus.
  set (rest := QString.arg "finished: %1, %2" _).
  change (QString.arg "%1 to archive : %2. %3. Time::%4"
            [path; archiveName path; rest; QString.number elapsed])
    with (path +:+ " to archive : " +:+ archiveName path +:+ ". " +:+ rest
          +:+ ". Time::" +:+ QString.number elapsed +:+ "").
  split.
  - rewrite <- StringFacts.app_assoc. apply StringFacts.isPrefixOf_app.
  - apply bool_decide_eq_false_2. apply StringFacts.app_not_nil.
Qed.

Lemma archiveName_suffix base tail :
  String.length tail = 4%nat -> archiveName (base +:+ tail) = base +:+ ".7z".
Proof.
  intros Hlen. unfold archiveName, QString.mid, QString.size.
  rewrite StringFacts.length_app, Hlen.
  replace (Z.of_nat (String.length base + 4) - 4)
    with (Z.of_nat (String.length base)) by lia.
  destruct (Z.ltb_spec (Z.of_nat (String.length base)) 0); [lia|].
  change (0 <? 0) with false. cbn iota. change (Z.to_nat 0) with 0%nat.
  cbn [QString.dropLeft]. by rewrite Nat2Z.id, StringFacts.left_app.
Qed.

(** X13: the flush that rotates starts the new destination with a pointer
    to the old one. When the day has changed and the rename goes through,
    the flush leaves the old text under the rotated name and a fresh
    destination that holds the line "Previous log ..." with the
    non-empty result of the rotation step, followed by the batch. *)
Theorem write_after_rotation messages s old :
  mMode (self s) <> OnlyConsole ->
  mFileDestination (self s) ∉ unwritable (env s) ->
  currentDate (self s) <> date (wallClock (env s) (ticks (env s))) ->
  renameRefused (env s) (mFileDestination (self s)) (rotatedName (self s))
    = false ->
  files (env s) !! mFileDestination (self s) = Some old ->
  4 <= QString.size (mFileDestination (self s)) ->
  let s' := (write messages s).2 in
  let prev := (renameFileIfFull s).1 in
  prev <> ""
  /\ files (env s') !! rotatedName (self s) = Some old
  /\ files (env s') !! mFileDestination (self s)
     = Some ("Previous log " +:+ prev +:+ LF +:+ concatLines messages).
Proof.
  intros Hm Hu Hd Hr Hold Hsize. cbn zeta.
  destruct (renameFileIfFull_sameSetting s) as (_ & _ & _ & _ & _ & Hun & _).
  destruct (renameFileIfFull_renamed s old Hd Hr Hold)
    as (Hfiles & _ & _ & Hprev & _).
  destruct (rotatedName_long (self s) Hsize) as [Hlen Hne].
  assert (QString.isEmpty (renameFileIfFull s).1 = false) as Hnonempty.
  { rewrite Hprev. destruct (mQuit (self s)).
    - apply bool_decide_eq_false_2. intros Heq. rewrite Heq in Hlen.
      pose proof (underscores_length (currentDate (self s))). cbn in Hlen. lia.
    - apply zipStatus_prefix. }
  split.
  { intros Heq. rewrite Heq in Hnonempty. discriminate Hnonempty. }
  rewrite write_file by (by rewrite ?Hun). unfold appendTo, previousLogLine.
  rewrite Hnonempty. cbn [snd self env files set_files set_console].
  rewrite Hfiles. split.
  - rewrite lookup_insert_ne by done. apply lookup_insert_eq.
  - rewrite lookup_insert_eq, lookup_insert_ne, lookup_delete_eq by done.
    cbn. by rewrite StringFacts.app_nil_l, !StringFacts.app_assoc.
Qed.

Lemma write_after_rotation_witness :
  let s := Sample.nextDay {["logs/app.log" := "old"]} ∅ ∅ OnlyFile [] true in
  let messages := ["first" +:+ LF] in
  let s' := (write messages s).2 in
  let prev := (renameFileIfFull s).1 in
  prev <> ""
  /\ files (env s') !! rotatedName (self s) = Some "old"
  /\ files (env s') !! mFileDestination (self s)
     = Some ("Previous log " +:+ prev +:+ LF +:+ concatLines messages).
Proof.
  intros s messages. apply (write_after_rotation messages s "old").
  - vm_compute. done.
  - cbn. set_solver.
  - vm_compute. done.
  - vm_compute. reflexivity.
  - vm_compute. reflexivity.
  - vm_compute. done.
Defined.

(** X14: there is at most one rename per day. While the clock stays on
    one day, and the tracked date is that day or the destination file
    exists, the rotation step after a rotation step, and the rotation
    step after a whole flush, rename nothing and return the empty
    result. *)
Theorem renameFileIfFull_once_per_day messages s today :
  (forall k, date (wallClock (env s) k) = today) ->
  currentDate (self s) = today
  \/ is_Some (files (env s) !! mFileDestination (self s)) ->
  (let s1 := (renameFileIfFull s).2 in renameFileIfFull s1 = ("", tick s1))
  /\ (mMode (self s) <> OnlyConsole ->
      mFileDestination (self s) ∉ unwritable (env s) ->
      let s1 := (write messages s).2 in
      renameFileIfFull s1 = ("", tick s1)).
Proof.
  intros Hclock Hstart.
  destruct (renameFileIfFull_sameSetting s)
    as (Hd1 & _ & _ & _ & _ & Hun1 & Hc1 & _).
  pose proof (noRotationDue_after_rotation today s Hclock Hstart) as Hidle.
  split.
  - cbn zeta. apply (noRotationDue_idle today); [|done].
    intros k. by rewrite Hc1.
  - intros Hm Hu. cbn zeta.
    rewrite write_file by (by rewrite ?Hun1). cbn [snd].
    apply (noRotationDue_idle today).
    + intros k. cbn. by rewrite Hc1.
    + rewrite <- Hd1.
      apply (noRotationDue_appendTo today (mFileDestination
               (self (renameFileIfFull s).2))
               (previousLogLine (renameFileIfFull s).1
                +:+ concatLines messages)
               (if bool_decide (mMode (self s) = Full) then messages else []))
        in Hidle; [|done].
      exact Hidle.
Qed.

Lemma renameFileIfFull_once_per_day_witness :
  let s := Sample.nextDay {["logs/app.log" := "old"]} ∅ ∅ OnlyFile [] false in
  let s1 := (renameFileIfFull s).2 in
  renameFileIfFull s1 = ("", tick s1).
Proof.
  intros s.
  apply (proj1 (renameFileIfFull_once_per_day [] s Sample.may2
                  (fun k => eq_refl)
                  (or_intror (ex_intro _ "old" eq_refl)))).
Defined.

(** X15: a refused rename is tried again on the next flush, with the old
    date. When the destination is missing on a new day the rotation step
    of the flush is refused and the tracked date stays; the flush creates
    the destination, and the next rotation step renames that fresh file
    to the name with the old date: the batch of the new day ends up in the
    file dated with the day before. *)
Theorem write_then_rotates_fresh_file messages s today :
  mMode (self s) <> OnlyConsole ->
  mFileDestination (self s) ∉ unwritable (env s) ->
  (forall k, date (wallClock (env s) k) = today) ->
  currentDate (self s) <> today ->
  files (env s) !! mFileDestination (self s) = None ->
  mFileDestination (self s) ∉ locked (env s) ->
  files (env s) !! rotatedName (self s) = None ->
  4 <= QString.size (mFileDestination (self s)) ->
  let s1 := (write messages s).2 in
  let s2 := (renameFileIfFull s1).2 in
  currentDate (self s1) = currentDate (self s)
  /\ files (env s1) !! mFileDestination (self s) = Some (concatLines messages)
  /\ files (env s2) !! rotatedName (self s) = Some (concatLines messages)
  /\ files (env s2) !! mFileDestination (self s) = None.
Proof.
  intros Hm Hu Hclock Hd Hmissing Hlock Hfree Hsize. cbn zeta.
  destruct (rotatedName_long (self s) Hsize) as [_ Hne].
  assert (renameFileIfFull s = ("", tick s)) as Hrot.
  { apply renameFileIfFull_refused; [by rewrite Hclock|].
    unfold renameRefused, exists_on.
    rewrite (bool_decide_eq_false_2 (is_Some (_ !! mFileDestination _)));
      [done|]. rewrite Hmissing. by intros [? ?]. }
  rewrite write_sameDay by done. cbn [snd].
  set (s1 := appendTo _ _ _ _).
  assert (files (env s1) !! mFileDestination (self s)
          = Some (concatLines messages)) as Hcontent.
  { unfold s1. cbn. rewrite lookup_insert_eq, Hmissing. done. }
  assert (renameRefused (env s1) (mFileDestination (self s1))
            (rotatedName (self s1)) = false) as Hr1.
  { unfold renameRefused, exists_on. unfold s1. cbn.
    rewrite (bool_decide_eq_true_2 (is_Some (<[_:=_]> _ !! mFileDestination _)))
      by (rewrite lookup_insert_eq; eauto).
    rewrite (bool_decide_eq_false_2 (_ ∈ _)) by done.
    rewrite bool_decide_eq_false_2; [done|].
    rewrite lookup_insert_ne, Hfree by done. by intros [? ?]. }
  destruct (renameFileIfFull_renamed s1 (concatLines messages)) as (Hfiles & _).
  - unfold s1. cbn. by rewrite Hclock.
  - exact Hr1.
  - exact Hcontent.
  - cbn zeta in Hfiles. rewrite Hfiles. unfold s1. cbn. repeat split.
    + done.
    + apply lookup_insert_eq.
    + rewrite lookup_insert_ne by done. apply lookup_delete_eq.
Qed.

Lemma write_then_rotates_fresh_file_witness :
  let s := Sample.nextDay ∅ ∅ ∅ OnlyFile [] false in
  let messages := ["first" +:+ LF] in
  let s1 := (write messages s).2 in
  let s2 := (renameFileIfFull s1).2 in
  currentDate (self s1) = currentDate (self s)
  /\ files (env s1) !! mFileDestination (self s) = Some (concatLines messages)
  /\ files (env s2) !! rotatedName (self s) = Some (concatLines messages)
  /\ files (env s2) !! mFileDestination (self s) = None.
Proof.
  intros s messages.
  apply (write_then_rotates_fresh_file messages s Sample.may2).
  - vm_compute. done.
  - cbn. set_solver.
  - intros k. reflexivity.
  - vm_compute. done.
  - reflexivity.
  - cbn. set_solver.
  - vm_compute. reflexivity.
  - vm_compute. done.
Defined.

(** ** The archiver *)

(** X16: [zipFileCustom] starts one 7z process, with the arguments
    a -t7z -mx9, the archive and the file; the writer is as before,
    nothing is printed to the console, and the status text starts with the
    path. The archive is the path with its last four characters replaced
    by .7z; a path shorter than four characters is kept whole before the
    .7z. What the process does on disk is not part of the statement. *)
Theorem zipFileCustom_effect path s :
  let status := (zipFileCustom path s).1 in
  let s' := (zipFileCustom path s).2 in
  zipRuns (env s')
  = (zipRuns (env s)
     ++ [["7z"; "a"; "-t7z"; "-mx9"; archiveName path; path]])%list
  /\ self s' = self s
  /\ console (env s') = console (env s)
  /\ QString.isPrefixOf (path +:+ " to archive : ") status = true
  /\ (forall base tail,
        path = base +:+ tail -> String.length tail = 4%nat ->
        archiveName path = base +:+ ".7z")
  /\ (QString.size path < 4 -> archiveName path = path +:+ ".7z").
Proof.
  cbn zeta. rewrite zipFileCustom_eq. cbn [fst snd].
  split; [done|]. split; [done|]. split; [done|].
  split; [apply zipStatus_prefix|]. split.
  - intros base tail -> Hlen. by apply archiveName_suffix.
  - intros Hshort. unfold archiveName, QString.mid.
    change (0 <? 0) with false. cbn iota. change (Z.to_nat 0) with 0%nat.
    destruct (Z.ltb_spec (QString.size path - 4) 0); [|lia].
    by destruct path.
Qed.

(** X17: a rotation without the quit flag archives the rotated file. When
    the day has changed, the destination is [base.ext] with an extension
    of three characters and the rename goes through, exactly one 7z
    process is started, on the archive [base_yyyy_MM_dd.7z] and the file
    [base_yyyy_MM_dd.ext], and the result handed to [write] is the status
    text of that run, which starts with the name of the rotated file. *)
Theorem renameFileIfFull_archives s base ext old :
  currentDate (self s) <> date (wallClock (env s) (ticks (env s))) ->
  mFileDestination (self s) = base +:+ "." +:+ ext ->
  String.length ext = 3%nat ->
  renameRefused (env s) (mFileDestination (self s)) (rotatedName (self s))
    = false ->
  files (env s) !! mFileDestination (self s) = Some old ->
  mQuit (self s) = false ->
  let rotated := base +:+ QDateFormat.underscores (currentDate (self s))
                 +:+ "." +:+ ext in
  let archive := base +:+ QDateFormat.underscores (currentDate (self s))
                 +:+ ".7z" in
  zipRuns (env (renameFileIfFull s).2)
  = (zipRuns (env s) ++ [["7z"; "a"; "-t7z"; "-mx9"; archive; rotated]])%list
  /\ QString.isPrefixOf (rotated +:+ " to archive : ") (renameFileIfFull s).1
     = true.
Proof.
  intros Hd Hdest Hlen Hr Hold Hq rotated archive.
  assert (rotatedName (self s) = rotated) as Hname.
  { unfold rotatedName. rewrite Hdest.
    apply StringFacts.insert_before_suffix.
    rewrite StringFacts.length_app, Hlen. done. }
  assert (archiveName rotated = archive) as Harchive.
  { unfold rotated, archive. rewrite <- !StringFacts.app_assoc.
    rewrite (StringFacts.app_assoc _ "." ext).
    apply archiveName_suffix. rewrite StringFacts.length_app, Hlen. done. }
  destruct (renameFileIfFull_renamed s old Hd Hr Hold)
    as (_ & _ & _ & Hprev & Hruns).
  rewrite Hq, Hname in Hprev, Hruns. rewrite Harchive in Hruns.
  split; [exact Hruns|]. rewrite Hprev. apply zipStatus_prefix.
Qed.

Lemma renameFileIfFull_archives_witness :
  let s := Sample.nextDay {["logs/app.log" := "old"]} ∅ ∅ OnlyFile [] false in
  zipRuns (env (renameFileIfFull s).2)
  = (zipRuns (env s)
     ++ [["7z"; "a"; "-t7z"; "-mx9";
          "logs/app" +:+ QDateFormat.underscores (currentDate (self s))
            +:+ ".7z";
          "logs/app" +:+ QDateFormat.underscores (currentDate (self s))
            +:+ "." +:+ "log"]])%list
  /\ QString.isPrefixOf
       (("logs/app" +:+ QDateFormat.underscores (currentDate (self s))
           +:+ "." +:+ "log") +:+ " to archive : ")
       (renameFileIfFull s).1 = true.
Proof.
  intros s.
  apply (renameFileIfFull_archives s "logs/app" "log" "old");
    vm_compute; done.
Defined.

(** ** The worker's turn, the idle flush and the mode *)

Lemma run_turn_eq s :
  run_turn s
  = let s1 := (write (mMessages (self s))
                 (mkSys (set_mMessages [] (self s)) (env s))).2 in
    (tt, mkSys (set_lastActive (wallClock (env s1) (ticks (env s1))) (self s1))
               (env (tick s1))).
Proof.
  unfold run_turn, returning. run. by destruct (write _ _) as [[] ?].
Qed.

(** A turn of the worker on a day without rotation. *)
Lemma run_turn_sameDay s :
  mMode (self s) <> OnlyConsole ->
  mFileDestination (self s) ∉ unwritable (env s) ->
  currentDate (self s) = date (wallClock (env s) (ticks (env s))) ->
  let s' := (run_turn s).2 in
  self s'
  = set_lastActive (wallClock (env s) (S (ticks (env s))))
      (set_mMessages [] (self s))
  /\ files (env s')
     = <[mFileDestination (self s) :=
           default "" (files (env s) !! mFileDestination (self s))
           +:+ concatLines (mMessages (self s))]> (files (env s))
  /\ wallClock (env s') = wallClock (env s)
  /\ unwritable (env s') = unwritable (env s).
Proof.
  intros Hm Hu Hd. cbn zeta. rewrite run_turn_eq. cbn zeta.
  rewrite write_sameDay; [|done|done|by apply renameFileIfFull_sameDay].
  done.
Qed.

(** X18: a turn of the worker empties the queue into the destination. In
    a mode other than console, with the destination openable and no
    rotation due, after the turn the queue is empty, the destination
    holds what it held followed by the queued lines in their order, no
    other file is touched, and the time of the last activity is the
    reading of the clock taken after the flush. *)
Theorem run_turn_flushes s :
  mMode (self s) <> OnlyConsole ->
  mFileDestination (self s) ∉ unwritable (env s) ->
  currentDate (self s) = date (wallClock (env s) (ticks (env s))) ->
  let s' := (run_turn s).2 in
  mMessages (self s') = []
  /\ files (env s') !! mFileDestination (self s)
     = Some (default "" (files (env s) !! mFileDestination (self s))
             +:+ concatLines (mMessages (self s)))
  /\ (forall path, path <> mFileDestination (self s) ->
        files (env s') !! path = files (env s) !! path)
  /\ lastActive (self s') = wallClock (env s) (S (ticks (env s))).
Proof.
  intros Hm Hu Hd.
  destruct (run_turn_sameDay s Hm Hu Hd) as (Hself & Hfiles & _).
  cbn zeta. rewrite Hself, Hfiles. repeat split.
  - apply lookup_insert_eq.
  - intros path Hne. by rewrite lookup_insert_ne.
Qed.

Lemma run_turn_flushes_witness :
  let s := mkSys (Sample.writer "logs/app.log" OnlyFile Debug Sample.Default
                    ["first" +:+ LF; "second" +:+ LF] false Sample.may2)
                 (Sample.worldAt Sample.may2 {["logs/app.log" := "old"]} ∅ ∅) in
  let s' := (run_turn s).2 in
  mMessages (self s') = []
  /\ files (env s') !! mFileDestination (self s)
     = Some (default "" (files (env s) !! mFileDestination (self s))
             +:+ concatLines (mMessages (self s)))
  /\ (forall path, path <> mFileDestination (self s) ->
        files (env s') !! path = files (env s) !! path)
  /\ lastActive (self s') = wallClock (env s) (S (ticks (env s))).
Proof.
  intros s. apply (run_turn_flushes s).
  - vm_compute. done.
  - cbn. set_solver.
  - reflexivity.
Defined.

Section Pipeline.
Context `{Enumerators}.

(** X19: from the calls to the file. When the clock stays on the tracked
    day, in a mode that writes the file and with the destination
    openable, a sequence of [enqueue] calls followed by a turn of the
    worker leaves in the destination what it held, then the lines queued
    before, then one line per call in the order of the calls; the queue
    is empty, and a second turn writes nothing more: no line is lost and
    none is written twice. *)
Theorem enqueue_then_flush calls s :
  mMode (self s) <> Disabled ->
  mMode (self s) <> OnlyConsole ->
  mFileDestination (self s) ∉ unwritable (env s) ->
  (forall k, date (wallClock (env s) k) = currentDate (self s)) ->
  let s1 := enqueueAll calls s in
  let s2 := (run_turn s1).2 in
  let s3 := (run_turn s2).2 in
  files (env s2) !! mFileDestination (self s)
  = Some (default "" (files (env s) !! mFileDestination (self s))
          +:+ concatLines (mMessages (self s)
                           ++ map (queuedLine (self s)) calls))
  /\ mMessages (self s2) = []
  /\ files (env s3) = files (env s2).
Proof.
  intros Hd Hm Hu Hclock s1 s2 s3.
  destruct (sameButQueue_keeps _ _ (enqueueAll_sameButQueue calls s))
    as (Hdest & Hmode & _ & _ & _ & Hdate & Hfiles & _ & _ & Hun & _ & Hwall).
  fold s1 in Hdest, Hmode, Hdate, Hfiles, Hun, Hwall.
  destruct (run_turn_sameDay s1) as (Hself2 & Hfiles2 & Hwall2 & Hun2).
  { by rewrite Hmode. }
  { by rewrite Hdest, Hun. }
  { by rewrite Hwall, Hclock, Hdate. }
  fold s2 in Hself2, Hfiles2, Hwall2, Hun2.
  destruct (run_turn_sameDay s2) as (_ & Hfiles3 & _).
  { by rewrite Hself2; cbn; rewrite Hmode. }
  { rewrite Hself2, Hun2. cbn. by rewrite Hdest, Hun. }
  { rewrite Hself2, Hwall2, Hwall, Hclock. cbn. done. }
  fold s3 in Hfiles3.
  assert (mMessages (self s2) = []) as Hqueue by (by rewrite Hself2).
  assert (files (env s2) !! mFileDestination (self s)
          = Some (default "" (files (env s) !! mFileDestination (self s))
                  +:+ concatLines (mMessages (self s)
                                   ++ map (queuedLine (self s)) calls)))
    as Hcontent.
  { rewrite Hfiles2, Hdest, lookup_insert_eq, Hfiles.
    unfold s1. by rewrite enqueueAll_queue. }
  split; [exact Hcontent|]. split; [exact Hqueue|].
  rewrite Hfiles3, Hqueue.
  assert (mFileDestination (self s2) = mFileDestination (self s)) as ->
    by (by rewrite Hself2; cbn).
  rewrite Hcontent. cbn. by rewrite StringFacts.app_nil_r, insert_id.
Qed.

End Pipeline.

Lemma enqueue_then_flush_witness :
  let s := mkSys (Sample.writer "logs/app.log" OnlyFile Debug (1 + 2 + 128)
                    [] false Sample.may2)
                 (Sample.worldAt Sample.may2 {["logs/app.log" := "old"]} ∅ ∅) in
  let calls :=
    [mkCall (Sample.noon Sample.may2) "0x1" "Net" Error "main" "a.cpp" 10
       "timeout";
     mkCall (Sample.noon Sample.may2) "0x1" "Net" Info "main" "a.cpp" 12
       "retry"] in
  let s2 := (run_turn (@enqueueAll Sample.enumerators calls s)).2 in
  files (env s2) !! "logs/app.log"
  = Some (default "" (files (env s) !! "logs/app.log")
          +:+ concatLines
                (mMessages (self s)
                 ++ map (@queuedLine Sample.enumerators (self s)) calls))
  /\ mMessages (self s2) = []
  /\ files (env (run_turn s2).2) = files (env s2).
Proof.
  intros s calls.
  apply (@enqueue_then_flush Sample.enumerators calls s).
  - vm_compute. done.
  - vm_compute. done.
  - cbn. set_solver.
  - intros k. reflexivity.
Defined.

Example enqueue_then_flush_text :
  let s := mkSys (Sample.writer "logs/app.log" OnlyFile Debug (1 + 2 + 128)
                    [] false Sample.may2)
                 (Sample.worldAt Sample.may2 {["logs/app.log" := "old"]} ∅ ∅) in
  let calls :=
    [mkCall (Sample.noon Sample.may2) "0x1" "Net" Error "main" "a.cpp" 10
       "timeout";
     mkCall (Sample.noon Sample.may2) "0x1" "Net" Info "main" "a.cpp" 12
       "retry"] in
  files (env (run_turn (@enqueueAll Sample.enumerators calls s)).2)
    !! "logs/app.log"
  = Some ("old" +:+ "[Error][Net] timeout" +:+ LF +:+ "[Info][Net] retry" +:+ LF).
Proof. vm_compute. reflexivity. Qed.

Lemma forcePush_eq secsTo s :
  (forcePush secsTo s).2
  = match mMessages (self s) with
    | [] => s
    | _ :: _ =>
        if 5 <? secsTo (lastActive (self s)) (wallClock (env s) (ticks (env s)))
        then mkSys (self s) (set_wakes (S (wakes (env s))) (env (tick s)))
        else tick s
    end.
Proof.
  unfold forcePush, returning. run.
  destruct (mMessages (self s)) as [|m q]; cbn [length when].
  { by destruct s. }
  change (0 <? Z.of_nat (S (length q))) with true. run.
  destruct (5 <? _); unfold wakeAll; run; done.
Qed.

(** X20: [forcePush] only signals. It never changes the writer, the
    files or the console, and it wakes the worker at most once; with an
    empty queue it does nothing at all, so right after a turn of the
    worker it is without effect. A signal is sent only when the queue is
    not empty and more than five seconds lie between the last activity
    and the clock. *)
Theorem forcePush_only_signals secsTo s :
  let s' := (forcePush secsTo s).2 in
  self s' = self s
  /\ files (env s') = files (env s)
  /\ console (env s') = console (env s)
  /\ (wakes (env s') <= S (wakes (env s)))%nat
  /\ (mMessages (self s) = [] -> s' = s)
  /\ (wakes (env s') <> wakes (env s) ->
      mMessages (self s) <> []
      /\ 5 < secsTo (lastActive (self s)) (wallClock (env s) (ticks (env s))))
  /\ (forcePush secsTo (run_turn s).2).2 = (run_turn s).2.
Proof.
  cbn zeta. rewrite (forcePush_eq secsTo (run_turn s).2), run_turn_queue.
  rewrite forcePush_eq.
  destruct (mMessages (self s)) as [|m q].
  { repeat split; try done; try lia. }
  destruct (Z.ltb_spec 5 (secsTo (lastActive (self s))
                            (wallClock (env s) (ticks (env s))))); cbn.
  - repeat split; try done; lia.
  - repeat split; try done; lia.
Qed.

(** X21: [setLogMode] changes the mode and nothing else; the lines
    already queued stay in the queue. After [setLogMode(Disabled)] a call
    of [enqueue] leaves the state as it is: nothing is queued and no file
    is touched. *)
Theorem setLogMode_then_enqueue `{Enumerators} mode date threadId module level
    function fileName line message s :
  let s1 := (setLogMode mode s).2 in
  self s1 = set_mMode mode (self s)
  /\ env s1 = env s
  /\ mMessages (self s1) = mMessages (self s)
  /\ (mode = Disabled ->
      (enqueue date threadId module level function fileName line message
         s1).2 = s1).
Proof.
  cbn zeta. unfold setLogMode, returning, update. cbn.
  repeat split. intros ->. by rewrite enqueue_disabled.
Qed.
